(** * Diffusive Gibbs kernel ([blackjax/mcmc/diffusive_gibbs.py])

    A shallow embedding of the Diffusive Gibbs transition kernel and of the
    JAX primitives it is written with, followed by the properties of the
    kernel.

    Numbers are real numbers ([R]); the one place where the floating-point
    range matters, the exponential of the acceptance log-ratio, carries an
    explicit overflow to [+inf].  The iteration counter is an integer of
    the type the run gives it: unbounded, or of fixed width with
    wrap-around.  Array leaves are the flattened data of an array (a
    Python scalar is an array of one element), nested structures are JAX
    pytrees, and a Python exception is [None]. *)

From Stdlib Require Import Reals List ZArith Bool Arith Lia Lra.
From Stdlib Require String.
Import ListNotations.

Local Open Scope R_scope.

(** ** Arrays *)

Definition array := list R.

(** An element-wise binary operation under numpy's broadcasting rule for
    flattened data: equal sizes pair up, a one-element operand is
    stretched, anything else raises.  This is the rule of arrays of rank
    at most 1, and what the code does on two operands of one shape, which
    is how the module pairs its leaves; broadcasting between different
    shapes of higher rank is not represented. *)
Definition broadcast2 (op : R -> R -> R) (x y : array) : option array :=
  if (length x =? length y)%nat then Some (map (fun p => op (fst p) (snd p)) (combine x y))
  else if (length x =? 1)%nat then Some (map (op (hd 0 x)) y)
  else if (length y =? 1)%nat then Some (map (fun xi => op xi (hd 0 y)) x)
  else None.

(** [jnp.sum]: the sum of all the elements. *)
Definition jnp_sum (x : array) : R := fold_left Rplus x 0.

(** [jnp.linalg.norm] with its default order: the Euclidean norm of the
    flattened array (Frobenius norm for a matrix). *)
Definition jnp_linalg_norm (x : array) : R :=
  sqrt (jnp_sum (map (fun xi => xi * xi) x)).

(** [jnp.where] with a scalar condition. *)
Definition jnp_where (c : bool) (x y : array) : option array :=
  broadcast2 (fun xi yi => if c then xi else yi) x y.

(** ** Pytrees *)

(** The node metadata a tree definition records: the container type and,
    for a dict, its keys. *)
Inductive node_data : Type :=
| NTuple
| NList
| NDict (keys : list String.string).

Definition node_data_eqb (d e : node_data) : bool :=
  match d, e with
  | NTuple, NTuple => true
  | NList, NList => true
  | NDict ks, NDict ks' =>
      if list_eq_dec String.string_dec ks ks' then true else false
  | _, _ => false
  end.

#[local] Unset Elimination Schemes.
Inductive pytree (A : Type) : Type :=
| Leaf (a : A)
| Node (d : node_data) (children : list (pytree A)).
#[local] Set Elimination Schemes.

Arguments Leaf {A} a.
Arguments Node {A} d children.

(** Traversals of the children of a node, failing as soon as one child
    fails or the two lists of children differ in length. *)
Definition map2_option {A B C} (f : A -> B -> option C)
    : list A -> list B -> option (list C) :=
  fix go (l : list A) (m : list B) : option (list C) :=
    match l, m with
    | [], [] => Some []
    | a :: l', b :: m' =>
        match f a b, go l' m' with
        | Some c, Some r => Some (c :: r)
        | _, _ => None
        end
    | _, _ => None
    end.

(** [jax.tree.leaves]. *)
Fixpoint tree_leaves {A} (t : pytree A) : list A :=
  match t with
  | Leaf a => [a]
  | Node _ cs => flat_map tree_leaves cs
  end.

(** [jax.tree.map] with one tree. *)
Fixpoint tree_map {A B} (f : A -> B) (t : pytree A) : pytree B :=
  match t with
  | Leaf a => Leaf (f a)
  | Node d cs => Node d (map (tree_map f) cs)
  end.

(** [jax.tree.map] with two trees.  The second tree is flattened up to the
    structure of the first: a container of the first must face a container
    of the same type, keys and arity, and a leaf of the first must face a
    leaf, since every function mapped in this module does arithmetic on
    what it receives.  A mismatch raises, and so does a raising [f]. *)
Fixpoint tree_map2 {A B C} (f : A -> B -> option C)
    (t : pytree A) (u : pytree B) : option (pytree C) :=
  match t, u with
  | Leaf a, Leaf b => option_map Leaf (f a b)
  | Node d cs, Node e us =>
      if node_data_eqb d e
      then option_map (Node d) (map2_option (tree_map2 f) cs us)
      else None
  | _, _ => None
  end.

(** [jax.tree_util.tree_reduce] without an initial value: a left fold over
    the leaves, which raises on a tree with no leaf. *)
Definition tree_reduce {A} (f : A -> A -> A) (t : pytree A) : option A :=
  match tree_leaves t with
  | [] => None
  | a :: l => Some (fold_left f l a)
  end.

(** ** Floating-point range *)

(** What [jnp.exp] can return on a finite argument: a finite positive
    number, or [+inf] once the result exceeds the largest finite float. *)
Inductive fval : Type :=
| Finite (r : R)
| PosInf.

(** [jnp.exp], for a float format whose largest finite value is
    [float_max]. *)
Definition jnp_exp (float_max : R) (x : R) : fval :=
  if Rle_dec (exp x) float_max then Finite (exp x) else PosInf.

(** [jnp.clip(x, lo, hi)], that is [minimum(maximum(x, lo), hi)]. *)
Definition jnp_clip (x : fval) (lo hi : R) : fval :=
  match x with
  | Finite r => Finite (Rmin (Rmax r lo) hi)
  | PosInf => Finite hi
  end.

(** [jax.scipy.stats.norm.logpdf(x, loc, scale)] on scalars; [scale] is the
    standard deviation. *)
Definition norm_logpdf (x loc scale : R) : R :=
  - (ln (2 * PI * scale ^ 2) + (x - loc) ^ 2 / scale ^ 2) / 2.

(** ** The state *)

Record GibbsState : Type := {
  position : pytree array;
  logdensity : R;
  logdensity_grad : pytree array;
  noise_contraction : R;
  noise_sigma : R;
  count : Z
}.

(** Python values, as far as the callers of [step] can look at them.  A
    [NamedTuple] is a tuple of its fields. *)
#[local] Unset Elimination Schemes.
Inductive pyobj : Type :=
| PyNone
| PyFloat (x : R)
| PyInt (n : Z)
| PyArrayTree (t : pytree array)
| PyTuple (items : list pyobj).
#[local] Set Elimination Schemes.

Definition GibbsState_obj (s : GibbsState) : pyobj :=
  PyTuple [PyArrayTree (position s); PyFloat (logdensity s);
           PyArrayTree (logdensity_grad s); PyFloat (noise_contraction s);
           PyFloat (noise_sigma s); PyInt (count s)].

(** [a, b = v]: unpacking a value into exactly two names. *)
Definition unpack_pair (v : pyobj) : option (pyobj * pyobj) :=
  match v with
  | PyTuple [a; b] => Some (a, b)
  | _ => None
  end.

(** ** Option as the exception monad of the pure helpers *)

Definition obind {A B} (o : option A) (k : A -> option B) : option B :=
  match o with
  | Some a => k a
  | None => None
  end.

Notation "'let?' x ':=' e 'in' k" := (obind e (fun x => k))
  (at level 10, x name, e at level 100, k at level 200).

(** [blackjax.SamplingAlgorithm]: a pair of an [init] and a [step]
    function; [F] says what running them can do. *)
Record SamplingAlgorithm (F : Type -> Type) (K St Out : Type) : Type := {
  init : pytree array -> option K -> F St;
  step : K -> St -> F Out
}.

Arguments init {F K St Out} _ _ _.
Arguments step {F K St Out} _ _ _.

(** The Gaussian term of [init_denoising] (a closure that captures
    nothing). *)
Definition gaussian_term (a b : pytree array) (scale : R) : option R :=
  let? gauss_terms :=
    tree_map2
      (fun x y =>
         let? d := broadcast2 Rminus x y in
         Some (- (jnp_linalg_norm d / (2 * scale ^ 2))))
      a b in
  tree_reduce Rplus gauss_terms.

(** [noiser_logpdf]: [norm.logpdf] takes arrays, so it raises on a
    container. *)
Definition noiser_logpdf (state : GibbsState)
    (sample_noised sample_clean : pytree array) : option R :=
  let? mean :=
    tree_map2 (broadcast2 Rmult) sample_clean
      (Leaf [noise_contraction state]) in
  match sample_noised, mean with
  | Leaf x, Leaf m =>
      let? lp :=
        broadcast2 (fun xi mi => norm_logpdf xi mi (noise_sigma state ^ 2))
          x m in
      Some (jnp_sum lp)
  | _, _ => None
  end.

(** The surrogate density of [kernel], with the variables it captures
    made arguments. *)
Definition conditional_logprob (logdensity_fn : pytree array -> R)
    (noise_contraction noise_sigma : R) (noised_position : pytree array)
    (x : pytree array) : option R :=
  let scaled_position := tree_map (map (fun xi => xi * noise_contraction)) x in
  let? norm_tree :=
    tree_map2
      (fun x y =>
         let? d := broadcast2 Rminus x y in
         Some (jnp_sum (map (fun di => di ^ 2) d) / (2 * noise_sigma ^ 2)))
      scaled_position noised_position in
  let? penalty := tree_reduce Rplus norm_tree in
  Some (logdensity_fn x - penalty).

(** ** Randomness and its book-keeping *)

(** The operations that consume a pseudo-random key. *)
Inductive consumer : Type :=
| GaussianNoise
| Bernoulli
| Split
| SamplerInit
| SamplerStep.

(** ** The iteration counter *)

(** A signed integer of [bits] bits keeps the low bits of every result:
    one past the largest value is the smallest one. *)
Definition wrap_signed (bits : positive) (n : Z) : Z :=
  ((n + 2 ^ (Z.pos bits - 1)) mod 2 ^ Z.pos bits - 2 ^ (Z.pos bits - 1))%Z.

(** The collaborators of the module: JAX's keyed generators and automatic
    differentiation, the noise helper of [blackjax.util], the float format,
    the integer type of the counter, and the MALA sampler with its state.

    [counter_bits] is [None] where [count] is a Python int (the state is
    used eagerly, as [init] builds it) and [Some 32] where it is a 32-bit
    integer: the state goes through [jax.jit] or [jax.lax.scan], or
    carries a [jnp.int32] ([Some 64] with 64-bit mode enabled). *)
Class Collaborators : Type := {
  PRNGKey : Type;
  jax_random_split : PRNGKey -> nat -> list PRNGKey;
  jax_random_bernoulli : PRNGKey -> fval -> bool;
  generate_gaussian_noise : PRNGKey -> pytree array -> R -> R -> pytree array;
  jax_value_and_grad : (pytree array -> R) -> pytree array -> R * pytree array;
  float_max : R;
  counter_bits : option positive;
  MALAState : Type;
  MALAInfo : Type;
  mala_position : MALAState -> pytree array;
  mala :
    (pytree array -> option R) -> R ->
    SamplingAlgorithm option PRNGKey MALAState (MALAState * MALAInfo)
}.

Section Effects.

Context {E : Collaborators}.

(** A computation may raise, and appends to the log of key uses each
    time it hands a key to a consumer. *)
Definition use_log : Type := list (consumer * PRNGKey).

Definition M (A : Type) : Type := use_log -> option (A * use_log).

Definition ret {A} (a : A) : M A := fun log => Some (a, log).

Definition bind {A B} (c : M A) (k : A -> M B) : M B :=
  fun log =>
    match c log with
    | Some (a, log') => k a log'
    | None => None
    end.

Definition raise {A} : M A := fun _ => None.

Definition lift {A} (o : option A) : M A :=
  match o with
  | Some a => ret a
  | None => raise
  end.

Definition consume (c : consumer) (k : PRNGKey) : M unit :=
  fun log => Some (tt, log ++ [(c, k)]).

End Effects.

Notation "x <- c ;; k" := (bind c (fun x => k))
  (at level 61, c at next level, right associativity).
Notation "c ;; k" := (bind c (fun _ => k))
  (at level 61, right associativity).

Section Kernel.

Context {E : Collaborators}.

(** The keyed calls of the module. *)
Definition gaussian_noise (rng_key : PRNGKey) (reference : pytree array)
    (mu sigma : R) : M (pytree array) :=
  consume GaussianNoise rng_key ;;
  ret (generate_gaussian_noise rng_key reference mu sigma).

Definition random_bernoulli (rng_key : PRNGKey) (p : fval) : M bool :=
  consume Bernoulli rng_key ;;
  ret (jax_random_bernoulli rng_key p).

Definition random_split (rng_key : PRNGKey) (n : nat) : M (list PRNGKey) :=
  consume Split rng_key ;;
  ret (jax_random_split rng_key n).

Definition denoiser_init {St Out}
    (denoiser : SamplingAlgorithm option PRNGKey St Out)
    (position : pytree array) (rng_key : PRNGKey) : M St :=
  consume SamplerInit rng_key ;;
  lift (init denoiser position (Some rng_key)).

Definition denoiser_step {St Out}
    (denoiser : SamplingAlgorithm option PRNGKey St Out)
    (rng_key : PRNGKey) (state : St) : M Out :=
  consume SamplerStep rng_key ;;
  lift (step denoiser rng_key state).

(** [jax.lax.scan]: thread the carry through the inputs, stacking the
    per-step outputs.  This is what a scan computes once its body has
    traced, that is for a body that does not raise and returns a carry of
    the type it received; the tracing itself is not represented. *)
Fixpoint scan {C X Y} (f : C -> X -> M (C * Y)) (c : C) (xs : list X)
    : M (C * list Y) :=
  match xs with
  | [] => ret (c, [])
  | x :: xs' =>
      r <- f c x ;;
      r' <- scan f (fst r) xs' ;;
      ret (fst r', snd r :: snd r')
  end.

(** ** The module's functions *)

Definition noiser (rng_key : PRNGKey) (state : GibbsState)
    : M (pytree array) :=
  let position := position state in
  let noise_contraction := noise_contraction state in
  let noise_sigma := noise_sigma state in
  noise <- gaussian_noise rng_key position 0 noise_sigma ;;
  lift (tree_map2
          (fun x n => broadcast2 Rplus (map (Rmult noise_contraction) x) n)
          position noise).

(** [count + k] in the integer type of the counter. *)
Definition counter_add (count k : Z) : Z :=
  match counter_bits with
  | None => (count + k)%Z
  | Some bits => wrap_signed bits (count + k)
  end.

(** The values the integer type of the counter can hold. *)
Definition counter_fits (n : Z) : Prop :=
  match counter_bits with
  | None => True
  | Some bits => (- 2 ^ (Z.pos bits - 1) <= n < 2 ^ (Z.pos bits - 1))%Z
  end.

(** The acceptance probability of [init_denoising]. *)
Definition prob_accept (log_accept : R) : fval :=
  jnp_clip (jnp_exp float_max log_accept) 0 1.

(** Division is the total division of the reals.  Where the noise
    parameters are Python floats, [noise_sigma / noise_contraction] raises
    on a zero [noise_contraction]; the model has no such failure. *)
Definition init_denoising (rng_key : PRNGKey)
    (noised_position : pytree array) (state : GibbsState)
    (logdensity_fn : pytree array -> R) : M (pytree array) :=
  let position := position state in
  let noise_contraction := noise_contraction state in
  let noise_sigma := noise_sigma state in
  noise <- gaussian_noise rng_key noised_position 0
             (noise_sigma / noise_contraction) ;;
  proposal_position <-
    lift (tree_map2
            (fun x n =>
               broadcast2 Rplus (map (fun xi => xi / noise_contraction) x) n)
            noised_position noise) ;;
  let scaled_noised :=
    tree_map (map (fun xi => xi / noise_contraction)) noised_position in
  g_position <-
    lift (gaussian_term position scaled_noised
            (noise_sigma / noise_contraction)) ;;
  g_proposal <-
    lift (gaussian_term proposal_position scaled_noised
            (noise_sigma / noise_contraction)) ;;
  let proposal_logratio := g_position - g_proposal in
  let scaled_proposal :=
    tree_map (map (fun xi => xi * noise_contraction)) proposal_position in
  let scaled_position :=
    tree_map (map (fun xi => xi * noise_contraction)) position in
  n_proposal <-
    lift (gaussian_term scaled_proposal noised_position noise_sigma) ;;
  n_position <-
    lift (gaussian_term scaled_position noised_position noise_sigma) ;;
  let noising_logratio := n_proposal - n_position in
  let diff_logdensity :=
    logdensity_fn proposal_position - logdensity_fn position in
  let log_accept := diff_logdensity + proposal_logratio + noising_logratio in
  do_accept <- random_bernoulli rng_key (prob_accept log_accept) ;;
  lift (tree_map2 (jnp_where do_accept) proposal_position position).

Definition denoise {St Info} (state_position : St -> pytree array)
    (rng_key : PRNGKey) (position : pytree array)
    (denoiser : SamplingAlgorithm option PRNGKey St (St * Info))
    (n_steps : nat) : M (pytree array) :=
  init_state <- denoiser_init denoiser position rng_key ;;
  let body_fn := fun state rng_key => denoiser_step denoiser rng_key state in
  keys <- random_split rng_key n_steps ;;
  r <- scan body_fn init_state keys ;;
  ret (state_position (fst r)).

Definition kernel (rng_key : PRNGKey) (state : GibbsState)
    (logdensity_fn : pytree array -> R) (n_steps : nat)
    (schedule : Z -> R * R) : M GibbsState :=
  let noise_contraction := noise_contraction state in
  let noise_sigma := noise_sigma state in
  let count := count state in
  let grad_fn := jax_value_and_grad logdensity_fn in
  let (logdensity, logdensity_grad) := grad_fn (position state) in
  keys <- random_split rng_key 3 ;;
  match keys with
  | [key_noiser; key_init; key_denoiser] =>
      noised_position <- noiser key_noiser state ;;
      position <-
        init_denoising key_init noised_position state logdensity_fn ;;
      denoised <-
        denoise mala_position key_denoiser position
          (mala (conditional_logprob logdensity_fn noise_contraction
                   noise_sigma noised_position)
                (1 / 100))
          n_steps ;;
      let count := counter_add count 1 in
      let (noise_contraction, noise_sigma) := schedule count in
      ret {| position := denoised;
             logdensity := logdensity;
             logdensity_grad := logdensity_grad;
             noise_contraction := noise_contraction;
             noise_sigma := noise_sigma;
             count := count |}
  | _ => raise
  end.

Definition as_top_level_api (logdensity_fn : pytree array -> R)
    (n_steps : nat) (schedule : Z -> R * R)
    : SamplingAlgorithm M PRNGKey GibbsState GibbsState :=
  {| init := fun position rng_key =>
       let grad_fn := jax_value_and_grad logdensity_fn in
       let (logdensity, logdensity_grad) := grad_fn position in
       let (contraction, noise_sigma) := schedule 0%Z in
       ret {| position := position;
              logdensity := logdensity;
              logdensity_grad := logdensity_grad;
              noise_contraction := contraction;
              noise_sigma := noise_sigma;
              count := 0 |};
     step := fun rng_key state =>
       kernel rng_key state logdensity_fn n_steps schedule |}.

End Kernel.

(** ** Chains *)

(** The inner chain that [denoise] scans, without the book-keeping: the
    sampler's transitions threaded through the keys in order, every info
    dropped. *)
Fixpoint sampler_chain {K St Info}
    (denoiser : SamplingAlgorithm option K St (St * Info))
    (s : St) (keys : list K) : option St :=
  match keys with
  | [] => Some s
  | k :: keys' =>
      let? r := step denoiser k s in
      sampler_chain denoiser (fst r) keys'
  end.

(** A driving loop over the public interface: one [step] per key. *)
Fixpoint run_chain {E : Collaborators}
    (algorithm : SamplingAlgorithm M PRNGKey GibbsState GibbsState)
    (keys : list PRNGKey) (state : GibbsState) : M GibbsState :=
  match keys with
  | [] => ret state
  | k :: keys' =>
      state' <- step algorithm k state ;;
      run_chain algorithm keys' state'
  end.

(** What of a transition's result does not hold the schedule's values:
    the position, the two log-density fields, the count and the key
    uses. *)
Definition transition_outcome {E : Collaborators}
    (r : GibbsState * use_log) :=
  (position (fst r), logdensity (fst r), logdensity_grad (fst r),
   count (fst r), snd r).

(** ** The documented formulas *)

(** The Gaussian term as documented: per leaf, the squared Euclidean norm
    of the difference over [2 * scale^2], negated, summed over the
    leaves. *)
Definition gaussian_term_squared (a b : pytree array) (scale : R) : option R :=
  let? gauss_terms :=
    tree_map2
      (fun x y =>
         let? d := broadcast2 Rminus x y in
         Some (- (jnp_linalg_norm d ^ 2 / (2 * scale ^ 2))))
      a b in
  tree_reduce Rplus gauss_terms.

(** The log-density of a Normal distribution given by its mean and its
    variance. *)
Definition normal_logpdf (x mean variance : R) : R :=
  - (ln (2 * PI * variance) + (x - mean) ^ 2 / variance) / 2.

(** The noising log-density as documented: Normal with mean
    [noise_contraction * clean] and variance [noise_sigma^2], summed over
    every element of every leaf. *)
Definition noiser_logpdf_documented (state : GibbsState)
    (sample_noised sample_clean : pytree array) : option R :=
  let? terms :=
    tree_map2
      (fun x c =>
         let? lp :=
           broadcast2
             (fun xi ci =>
                normal_logpdf xi (noise_contraction state * ci)
                  (noise_sigma state ^ 2))
             x c in
         Some (jnp_sum lp))
      sample_noised sample_clean in
  Some (fold_left Rplus (tree_leaves terms) 0).

(** ** Shapes *)

(** The shape of a nested structure: its tree definition together with the
    size of every leaf. *)
Definition shape (t : pytree array) : pytree nat := tree_map (@length R) t.

(** Replace the sampler factory of a set of collaborators. *)
Definition with_mala (E : Collaborators)
    (m : (pytree array -> option R) -> R ->
         SamplingAlgorithm option PRNGKey MALAState (MALAState * MALAInfo))
    : Collaborators :=
  {| PRNGKey := PRNGKey;
     jax_random_split := jax_random_split;
     jax_random_bernoulli := jax_random_bernoulli;
     generate_gaussian_noise := generate_gaussian_noise;
     jax_value_and_grad := jax_value_and_grad;
     float_max := float_max;
     counter_bits := counter_bits;
     MALAState := MALAState;
     MALAInfo := MALAInfo;
     mala_position := mala_position;
     mala := m |}.

(** ** A concrete set of collaborators

    Keys are numbers and splitting key [k] gives [10k+1, 10k+2, ...]; the
    Bernoulli draw accepts on even keys; the noise generator returns the
    mean; the target is flat, so its gradient vanishes; the inner sampler
    starts at the given position and moves by its step size along the
    first coordinate at every transition. *)
Module Concrete.

Definition split (k n : nat) : list nat :=
  map (fun i => (10 * k + i)%nat) (seq 1 n).

Definition bernoulli (k : nat) (_ : fval) : bool := Nat.even k.

Definition noise (_ : nat) (reference : pytree array) (mu _ : R)
    : pytree array :=
  tree_map (map (fun _ => mu)) reference.

Definition flat_target (_ : pytree array) : R := 0.

Definition value_and_grad (f : pytree array -> R) (x : pytree array)
    : R * pytree array :=
  (f x, tree_map (map (fun _ => 0)) x).

Definition shift (eps : R) (t : pytree array) : pytree array :=
  match t with
  | Leaf (x :: l) => Leaf (x + eps :: l)
  | _ => t
  end.

Definition drift (_ : pytree array -> option R) (eps : R)
    : SamplingAlgorithm option nat (pytree array) (pytree array * unit) :=
  {| init := fun position _ => Some position;
     step := fun _ state => Some (shift eps state, tt) |}.

(** A sampler whose [init] raises. *)
Definition refusing
    : SamplingAlgorithm option nat (pytree array) (pytree array * unit) :=
  {| init := fun _ _ => None;
     step := fun _ state => Some (state, tt) |}.

(** A factory that agrees with [drift] at step size [1/100] only. *)
Definition drift_or_stay (g : pytree array -> option R) (eps : R)
    : SamplingAlgorithm option nat (pytree array) (pytree array * unit) :=
  if Req_dec_T eps (1 / 100) then drift g eps else drift g 0.

Definition collaborators : Collaborators :=
  {| PRNGKey := nat;
     jax_random_split := split;
     jax_random_bernoulli := bernoulli;
     generate_gaussian_noise := noise;
     jax_value_and_grad := value_and_grad;
     float_max := 2 ^ 128;
     counter_bits := None;
     MALAState := pytree array;
     MALAInfo := unit;
     mala_position := fun s => s;
     mala := drift |}.

(** The same collaborators with the state traced: a 32-bit counter. *)
Definition traced_collaborators : Collaborators :=
  {| PRNGKey := nat;
     jax_random_split := split;
     jax_random_bernoulli := bernoulli;
     generate_gaussian_noise := noise;
     jax_value_and_grad := value_and_grad;
     float_max := 2 ^ 128;
     counter_bits := Some 32%positive;
     MALAState := pytree array;
     MALAInfo := unit;
     mala_position := fun s => s;
     mala := drift |}.

Definition schedule (_ : Z) : R * R := (9 / 10, 1 / 10).

Definition state0 : GibbsState :=
  {| position := Leaf [1];
     logdensity := 0;
     logdensity_grad := Leaf [0];
     noise_contraction := 9 / 10;
     noise_sigma := 1 / 10;
     count := 0 |}.

Definition pair_state : GibbsState :=
  {| position := Node NTuple [Leaf [1; 2]; Leaf [3]];
     logdensity := 0;
     logdensity_grad := Node NTuple [Leaf [0; 0]; Leaf [0]];
     noise_contraction := 9 / 10;
     noise_sigma := 1 / 10;
     count := 4 |}.

Definition wide_state : GibbsState :=
  {| position := Leaf [0];
     logdensity := 0;
     logdensity_grad := Leaf [0];
     noise_contraction := 1;
     noise_sigma := 2;
     count := 0 |}.

Definition empty_state : GibbsState :=
  {| position := Node NTuple [];
     logdensity := 0;
     logdensity_grad := Node NTuple [];
     noise_contraction := 9 / 10;
     noise_sigma := 1 / 10;
     count := 0 |}.

(** [state0] at the largest 32-bit count, and what one transition with
    key [0] and two inner steps makes of it under a 32-bit counter. *)
Definition last_count_state : GibbsState :=
  {| position := Leaf [1];
     logdensity := 0;
     logdensity_grad := Leaf [0];
     noise_contraction := 9 / 10;
     noise_sigma := 1 / 10;
     count := 2147483647 |}.

Definition wrapped_count_state : GibbsState :=
  {| position := Leaf [(9 / 10 * 1 + 0) / (9 / 10) + 0 + 1 / 100 + 1 / 100];
     logdensity := 0;
     logdensity_grad := Leaf [0];
     noise_contraction := 9 / 10;
     noise_sigma := 1 / 10;
     count := -2147483648 |}.

(** [state0] with other values in the two log-density fields. *)
Definition state0_other_logdensity : GibbsState :=
  {| position := Leaf [1];
     logdensity := 7;
     logdensity_grad := Leaf [3];
     noise_contraction := 9 / 10;
     noise_sigma := 1 / 10;
     count := 0 |}.

(** A schedule that does change with the iteration. *)
Definition annealing (n : Z) : R * R := (1 / 2, 1 / (1 + IZR n)).

(** The state and the key uses after one transition from [state0] with
    key [0] and two inner steps. *)
Definition state1 : GibbsState :=
  {| position := Leaf [(9 / 10 * 1 + 0) / (9 / 10) + 0 + 1 / 100 + 1 / 100];
     logdensity := 0;
     logdensity_grad := Leaf [0];
     noise_contraction := 9 / 10;
     noise_sigma := 1 / 10;
     count := 1 |}.

Definition log1 : list (consumer * nat) :=
  [(Split, 0); (GaussianNoise, 1); (GaussianNoise, 2); (Bernoulli, 2);
   (SamplerInit, 3); (Split, 3); (SamplerStep, 31); (SamplerStep, 32)]%nat.

End Concrete.

(** ** Induction on pytrees *)

Section PytreeInd.

Variables (A : Type) (P : pytree A -> Prop).
Hypothesis on_leaf : forall a, P (Leaf a).
Hypothesis on_node : forall d cs, Forall P cs -> P (Node d cs).

Fixpoint pytree_ind (t : pytree A) : P t :=
  match t with
  | Leaf a => on_leaf a
  | Node d cs =>
      on_node d cs
        ((fix all (l : list (pytree A)) : Forall P l :=
            match l with
            | [] => Forall_nil P
            | c :: l' => Forall_cons c (pytree_ind c) (all l')
            end) cs)
  end.

End PytreeInd.

(** * Properties *)

(** Evaluate a run on concrete inputs, leaving real arithmetic alone. *)
Ltac run :=
  lazy -[Rplus Rmult Rminus Rdiv Ropp Rinv IZR sqrt exp ln PI pow
         Rle_dec Rmin Rmax Req_dec_T].

(** ** The Gaussian term *)

Lemma norm_singleton (x : R) : 0 <= x -> jnp_linalg_norm [x] = x.
Proof.
  intros Hx. unfold jnp_linalg_norm, jnp_sum. simpl.
  rewrite Rplus_0_l. apply sqrt_square. exact Hx.
Qed.

(** C1. At [a = [2]], [b = [0]], [scale = 1] the term of the code is
    [-1]: the Euclidean norm [2] over [2 * scale^2], not squared.  The
    documented term, with the squared norm [4], is [-2]. *)
Theorem gaussian_term_norm_not_squared :
  gaussian_term (Leaf [2]) (Leaf [0]) 1 = Some (-1) /\
  gaussian_term_squared (Leaf [2]) (Leaf [0]) 1 = Some (-2) /\
  gaussian_term (Leaf [2]) (Leaf [0]) 1
    <> gaussian_term_squared (Leaf [2]) (Leaf [0]) 1.
Proof.
  assert (Hn : jnp_linalg_norm [2 - 0] = 2).
  { replace (2 - 0) with 2 by lra. apply norm_singleton. lra. }
  assert (Hc : gaussian_term (Leaf [2]) (Leaf [0]) 1 = Some (-1)).
  { unfold gaussian_term, tree_reduce. simpl. rewrite Hn. f_equal. field. }
  assert (Hd : gaussian_term_squared (Leaf [2]) (Leaf [0]) 1 = Some (-2)).
  { unfold gaussian_term_squared, tree_reduce. simpl. rewrite Hn.
    f_equal. field. }
  repeat split; trivial.
  rewrite Hc, Hd. intros H. injection H. lra.
Qed.

(** ** The noising log-density *)

(** C2. With [noise_contraction = 1] and [noise_sigma = 2], at
    [noised = clean = [0]], the code evaluates the Normal log-density with
    standard deviation [noise_sigma^2 = 4], that is variance 16, and returns
    [- ln (32 PI) / 2]; the documented density, with variance
    [noise_sigma^2 = 4], is [- ln (8 PI) / 2]. *)
Theorem noiser_logpdf_scale_is_variance :
  noiser_logpdf Concrete.wide_state (Leaf [0]) (Leaf [0])
    = Some (- ln (32 * PI) / 2) /\
  noiser_logpdf_documented Concrete.wide_state (Leaf [0]) (Leaf [0])
    = Some (- ln (8 * PI) / 2) /\
  noiser_logpdf Concrete.wide_state (Leaf [0]) (Leaf [0])
    <> noiser_logpdf_documented Concrete.wide_state (Leaf [0]) (Leaf [0]).
Proof.
  assert (Hc : noiser_logpdf Concrete.wide_state (Leaf [0]) (Leaf [0])
               = Some (- ln (32 * PI) / 2)).
  { change (Some (0 + norm_logpdf 0 (0 * 1) (2 ^ 2))
            = Some (- ln (32 * PI) / 2)).
    unfold norm_logpdf. f_equal.
    replace (2 * PI * (2 ^ 2) ^ 2) with (32 * PI) by ring.
    field. }
  assert (Hd : noiser_logpdf_documented Concrete.wide_state
                 (Leaf [0]) (Leaf [0])
               = Some (- ln (8 * PI) / 2)).
  { change (Some (0 + (0 + normal_logpdf 0 (1 * 0) (2 ^ 2)))
            = Some (- ln (8 * PI) / 2)).
    unfold normal_logpdf. f_equal.
    replace (2 * PI * 2 ^ 2) with (8 * PI) by ring.
    field. }
  repeat split; trivial.
  rewrite Hc, Hd. intros H.
  assert (Hpi := PI_RGT_0).
  assert (Hlt : ln (8 * PI) < ln (32 * PI)) by (apply ln_increasing; lra).
  assert (Heq : - ln (32 * PI) / 2 = - ln (8 * PI) / 2) by congruence.
  lra.
Qed.

(** C10. [noiser_logpdf] maps [jnp.multiply] over the clean sample and the
    scalar [noise_contraction]: a clean sample with more than one leaf is a
    container, which the scalar does not match, and the call raises. *)
Theorem noiser_logpdf_raises_on_several_leaves
    (state : GibbsState) (sample_noised sample_clean : pytree array) :
  (1 < length (tree_leaves sample_clean))%nat ->
  noiser_logpdf state sample_noised sample_clean = None.
Proof.
  intros Hleaves. destruct sample_clean as [a | d cs].
  - simpl in Hleaves. lia.
  - reflexivity.
Qed.

Lemma noiser_logpdf_raises_on_several_leaves_witness :
  (1 < length (tree_leaves (position Concrete.pair_state)))%nat /\
  noiser_logpdf Concrete.pair_state (position Concrete.pair_state)
    (position Concrete.pair_state) = None.
Proof.
  split.
  - exact (le_n 2).
  - apply (noiser_logpdf_raises_on_several_leaves Concrete.pair_state).
    exact (le_n 2).
Defined.

(** On a single array the call returns. *)
Lemma noiser_logpdf_single_array (state : GibbsState) (x c : array) :
  length x = length c ->
  exists v, noiser_logpdf state (Leaf x) (Leaf c) = Some v.
Proof.
  intros Hlen. unfold noiser_logpdf, tree_map2, obind, option_map.
  assert (Hm : exists m, broadcast2 Rmult c [noise_contraction state] = Some m
                         /\ length m = length c).
  { unfold broadcast2. simpl.
    destruct (length c =? 1)%nat eqn:H1.
    - eexists. split; [reflexivity|]. rewrite length_map, length_combine.
      apply Nat.eqb_eq in H1. rewrite H1. reflexivity.
    - destruct c as [| c0 c']; simpl.
      + eexists. split; reflexivity.
      + simpl in H1. destruct c' as [| c1 c'']; [discriminate|]. simpl.
        eexists. split; [reflexivity|]. simpl. rewrite length_map. reflexivity. }
  destruct Hm as [m [Hm Hlm]]. rewrite Hm.
  unfold broadcast2. rewrite Hlm, Hlen, Nat.eqb_refl. eexists. reflexivity.
Qed.

(** ** The acceptance probability *)

Section Acceptance.

Context {E : Collaborators}.

Lemma jnp_clip_unit_interval (x : fval) :
  exists p, jnp_clip x 0 1 = Finite p /\ 0 <= p <= 1.
Proof.
  destruct x as [r |]; simpl.
  - exists (Rmin (Rmax r 0) 1). split; [reflexivity|]. split.
    + apply Rmin_glb; [apply Rmax_r | lra].
    + apply Rmin_r.
  - exists 1. split; [reflexivity | lra].
Qed.

(** C8. Whatever the largest finite float, and for every finite
    [log_accept], the probability handed to the Bernoulli draw is a finite
    number of [[0, 1]], also when [exp log_accept] overflows; at
    [log_accept = 50] it is exactly [1]. *)
Theorem prob_accept_clamped :
  (forall log_accept : R,
      exists p, prob_accept log_accept = Finite p /\ 0 <= p <= 1) /\
  prob_accept 50 = Finite 1.
Proof.
  split.
  - intros log_accept. apply jnp_clip_unit_interval.
  - unfold prob_accept, jnp_exp.
    destruct (Rle_dec (exp 50) float_max) as [_ | _]; simpl; [| reflexivity].
    assert (H : 1 < exp 50).
    { pose proof (exp_ineq1 50). lra. }
    rewrite Rmax_left by lra. rewrite Rmin_right by lra. reflexivity.
Qed.

End Acceptance.

(** ** Running the effects *)

Section Monad_runs.

Context {E : Collaborators}.

Lemma bind_inv {A B} (c : M A) (k : A -> M B) log b log' :
  (x <- c ;; k x) log = Some (b, log') ->
  exists a log1, c log = Some (a, log1) /\ k a log1 = Some (b, log').
Proof.
  unfold bind. destruct (c log) as [[a log1] |]; [| discriminate].
  intros H. exists a, log1. split; [reflexivity | exact H].
Qed.

Lemma lift_inv {A} (o : option A) log a log' :
  lift o log = Some (a, log') -> o = Some a /\ log' = log.
Proof.
  destruct o as [a0 |]; simpl; unfold ret, raise; intros H;
    [injection H as -> -> | discriminate].
  split; reflexivity.
Qed.

Lemma ret_inv {A} (a0 : A) log a log' :
  ret a0 log = Some (a, log') -> a = a0 /\ log' = log.
Proof. unfold ret. intros H. injection H as -> ->. split; reflexivity. Qed.

Lemma consume_then {A} (c : consumer) (k : PRNGKey) (m : M A) log :
  (consume c k ;; m) log = m (log ++ [(c, k)]).
Proof. reflexivity. Qed.

End Monad_runs.

(** Decompose a successful run, one call at a time. *)
Ltac step_run H :=
  let a := fresh "a" in
  let l := fresh "log" in
  let H1 := fresh "Hrun" in
  apply bind_inv in H; destruct H as [a [l [H1 H]]].

Section Runs.

Context {E : Collaborators}.

Lemma gaussian_noise_run rng_key reference mu sigma log :
  gaussian_noise rng_key reference mu sigma log
  = Some (generate_gaussian_noise rng_key reference mu sigma,
          log ++ [(GaussianNoise, rng_key)]).
Proof. reflexivity. Qed.

Lemma random_bernoulli_run rng_key p log :
  random_bernoulli rng_key p log
  = Some (jax_random_bernoulli rng_key p, log ++ [(Bernoulli, rng_key)]).
Proof. reflexivity. Qed.

Lemma random_split_run rng_key n log :
  random_split rng_key n log
  = Some (jax_random_split rng_key n, log ++ [(Split, rng_key)]).
Proof. reflexivity. Qed.

(** The keys a run of [noiser] consumes. *)
Lemma noiser_log rng_key state log r log' :
  noiser rng_key state log = Some (r, log') ->
  log' = log ++ [(GaussianNoise, rng_key)].
Proof.
  unfold noiser. intros H. step_run H.
  rewrite gaussian_noise_run in Hrun. injection Hrun as <- <-.
  apply lift_inv in H. destruct H as [_ ->]. reflexivity.
Qed.

(** The keys a run of [init_denoising] consumes: the same key twice. *)
Lemma init_denoising_log rng_key noised_position state logdensity_fn
    log r log' :
  init_denoising rng_key noised_position state logdensity_fn log
  = Some (r, log') ->
  log' = log ++ [(GaussianNoise, rng_key); (Bernoulli, rng_key)].
Proof.
  unfold init_denoising. intros H. step_run H.
  rewrite gaussian_noise_run in Hrun. injection Hrun as <- <-.
  do 5 (let Hl := fresh "Hlift" in
        apply bind_inv in H; destruct H as [? [? [Hl H]]];
        apply lift_inv in Hl; destruct Hl as [_ ->]).
  step_run H. rewrite random_bernoulli_run in Hrun. injection Hrun as <- <-.
  apply lift_inv in H. destruct H as [_ ->].
  rewrite <- app_assoc. reflexivity.
Qed.

Lemma scan_steps_log {St Info}
    (denoiser : SamplingAlgorithm option PRNGKey St (St * Info))
    (keys : list PRNGKey) s log r log' :
  scan (fun state rng_key => denoiser_step denoiser rng_key state) s keys log
  = Some (r, log') ->
  log' = log ++ map (fun k => (SamplerStep, k)) keys.
Proof.
  revert s log r log'.
  induction keys as [| k keys IH]; intros s log r log' H; simpl in H.
  - apply ret_inv in H. destruct H as [_ ->]. simpl.
    rewrite app_nil_r. reflexivity.
  - step_run H. step_run H. apply ret_inv in H. destruct H as [_ ->].
    unfold denoiser_step in Hrun. rewrite consume_then in Hrun.
    apply lift_inv in Hrun. destruct Hrun as [_ ->].
    apply IH in Hrun0. rewrite Hrun0, <- app_assoc. reflexivity.
Qed.

(** The keys a run of [denoise] consumes: its key goes both to the
    sampler's [init] and to [split]. *)
Lemma denoise_log {St Info} (state_position : St -> pytree array)
    rng_key position
    (denoiser : SamplingAlgorithm option PRNGKey St (St * Info))
    n_steps log r log' :
  denoise state_position rng_key position denoiser n_steps log
  = Some (r, log') ->
  log' = log ++ [(SamplerInit, rng_key); (Split, rng_key)]
             ++ map (fun k => (SamplerStep, k))
                  (jax_random_split rng_key n_steps).
Proof.
  unfold denoise. intros H. step_run H.
  unfold denoiser_init in Hrun. rewrite consume_then in Hrun.
  apply lift_inv in Hrun. destruct Hrun as [_ ->].
  step_run H. rewrite random_split_run in Hrun. injection Hrun as <- <-.
  step_run H. apply scan_steps_log in Hrun.
  apply ret_inv in H. destruct H as [_ ->]. rewrite Hrun.
  rewrite <- !app_assoc. reflexivity.
Qed.

(** What a successful run of [kernel] went through. *)
Lemma kernel_inv rng_key state logdensity_fn n_steps schedule log s' log' :
  kernel rng_key state logdensity_fn n_steps schedule log = Some (s', log') ->
  exists key_noiser key_init key_denoiser noised_position start denoised
         log1 log2 log3,
    jax_random_split rng_key 3 = [key_noiser; key_init; key_denoiser] /\
    noiser key_noiser state (log ++ [(Split, rng_key)])
      = Some (noised_position, log1) /\
    init_denoising key_init noised_position state logdensity_fn log1
      = Some (start, log2) /\
    denoise mala_position key_denoiser start
      (mala (conditional_logprob logdensity_fn (noise_contraction state)
               (noise_sigma state) noised_position) (1 / 100))
      n_steps log2 = Some (denoised, log3) /\
    log' = log3 /\
    s' = {| position := denoised;
            logdensity := fst (jax_value_and_grad logdensity_fn (position state));
            logdensity_grad :=
              snd (jax_value_and_grad logdensity_fn (position state));
            noise_contraction := fst (schedule (counter_add (count state) 1));
            noise_sigma := snd (schedule (counter_add (count state) 1));
            count := counter_add (count state) 1 |}.
Proof.
  unfold kernel.
  destruct (jax_value_and_grad logdensity_fn (position state))
    as [value grad].
  intros H. step_run H.
  rewrite random_split_run in Hrun. injection Hrun as <- <-.
  destruct (jax_random_split rng_key 3)
    as [| k1 [| k2 [| k3 [| k4 ks]]]]; try discriminate H.
  step_run H. step_run H. step_run H.
  destruct (schedule (counter_add (count state) 1)) as [contraction sigma].
  apply ret_inv in H. destruct H as [-> ->].
  exists k1, k2, k3, a, a0, a1, log0, log1, log2.
  repeat split; assumption.
Qed.

(** A scan of the sampler's transitions that returns has gone through
    the sampler's chain. *)
Lemma scan_chain_inv {St Info}
    (denoiser : SamplingAlgorithm option PRNGKey St (St * Info))
    (keys : list PRNGKey) s log r log' :
  scan (fun state rng_key => denoiser_step denoiser rng_key state) s keys log
  = Some (r, log') ->
  sampler_chain denoiser s keys = Some (fst r).
Proof.
  revert s log r log'.
  induction keys as [| k keys IH]; intros s log r log' H; simpl in H.
  - apply ret_inv in H. destruct H as [-> _]. reflexivity.
  - step_run H. step_run H. apply ret_inv in H. destruct H as [-> _].
    unfold denoiser_step in Hrun. rewrite consume_then in Hrun.
    apply lift_inv in Hrun. destruct Hrun as [Hstep _].
    simpl. rewrite Hstep. simpl. exact (IH _ _ _ _ Hrun0).
Qed.

(** A run of [denoise] that returns started the sampler at the given
    position, went through its chain over the split keys and returned
    the position of the last state. *)
Lemma denoise_chain_inv {St Info} (state_position : St -> pytree array)
    rng_key position
    (denoiser : SamplingAlgorithm option PRNGKey St (St * Info))
    n_steps log r log' :
  denoise state_position rng_key position denoiser n_steps log
  = Some (r, log') ->
  exists s0 sN,
    init denoiser position (Some rng_key) = Some s0 /\
    sampler_chain denoiser s0 (jax_random_split rng_key n_steps) = Some sN /\
    r = state_position sN.
Proof.
  unfold denoise. intros H. step_run H.
  unfold denoiser_init in Hrun. rewrite consume_then in Hrun.
  apply lift_inv in Hrun. destruct Hrun as [Hinit _].
  step_run H. rewrite random_split_run in Hrun. injection Hrun as <- <-.
  step_run H. apply scan_chain_inv in Hrun.
  apply ret_inv in H. destruct H as [-> _].
  eexists. eexists. split; [exact Hinit|]. split; [exact Hrun | reflexivity].
Qed.

End Runs.

(** ** One transition on the concrete collaborators *)

Lemma concrete_kernel_run :
  kernel (E := Concrete.collaborators) 0%nat Concrete.state0
    Concrete.flat_target 2 Concrete.schedule []
  = Some (Concrete.state1, Concrete.log1).
Proof. run. reflexivity. Qed.

(** ** The emitted state *)

Section Emitted.

Context {E : Collaborators}.

(** C5. The [logdensity] and [logdensity_grad] of the state a kernel
    invocation emits are the value and the gradient of the target at the
    position of the input state. *)
Theorem kernel_logdensity_of_input_position
    rng_key state logdensity_fn n_steps schedule log s' log' :
  kernel rng_key state logdensity_fn n_steps schedule log = Some (s', log') ->
  logdensity s' = fst (jax_value_and_grad logdensity_fn (position state)) /\
  logdensity_grad s'
    = snd (jax_value_and_grad logdensity_fn (position state)).
Proof.
  intros H. apply kernel_inv in H.
  destruct H as (k1 & k2 & k3 & np & start & den & l1 & l2 & l3 & H).
  destruct H as (_ & _ & _ & _ & _ & ->). split; reflexivity.
Qed.

Lemma pow2_double (bits : positive) :
  (2 ^ Z.pos bits = 2 * 2 ^ (Z.pos bits - 1))%Z.
Proof.
  rewrite <- Z.pow_succ_r by lia. f_equal. lia.
Qed.

Lemma wrap_signed_fits (bits : positive) (n : Z) :
  (- 2 ^ (Z.pos bits - 1) <= n < 2 ^ (Z.pos bits - 1))%Z ->
  wrap_signed bits n = n.
Proof.
  intros Hn. unfold wrap_signed.
  rewrite (pow2_double bits). rewrite Z.mod_small by lia. lia.
Qed.

Lemma wrap_signed_past_largest (bits : positive) :
  wrap_signed bits (2 ^ (Z.pos bits - 1) - 1 + 1) = (- 2 ^ (Z.pos bits - 1))%Z.
Proof.
  unfold wrap_signed. rewrite (pow2_double bits).
  replace (2 ^ (Z.pos bits - 1) - 1 + 1 + 2 ^ (Z.pos bits - 1))%Z
    with (2 * 2 ^ (Z.pos bits - 1))%Z by lia.
  rewrite Z.mod_same; [lia|].
  assert (0 < 2 ^ (Z.pos bits - 1))%Z by (apply Z.pow_pos_nonneg; lia). lia.
Qed.

Lemma counter_add_fits (count k : Z) :
  counter_fits (count + k) -> counter_add count k = (count + k)%Z.
Proof.
  unfold counter_fits, counter_add.
  destruct counter_bits as [bits |]; [apply wrap_signed_fits | reflexivity].
Qed.

(** C6, as the code has it. [init] emits a state with [count = 0]; the
    kernel emits [count + 1] computed in the integer type of the counter;
    in both the noise parameters are the schedule's value at the emitted
    [count].  Where [count + 1] fits the type (always, for a Python int)
    the emitted count is exactly one more than the input's, hence not
    smaller; a fixed-width counter at its largest value wraps to the
    smallest one. *)
Theorem count_and_schedule logdensity_fn n_steps schedule :
  (forall position rng_key log,
      exists s0,
        init (as_top_level_api logdensity_fn n_steps schedule)
          position rng_key log = Some (s0, log) /\
        count s0 = 0%Z /\
        (noise_contraction s0, noise_sigma s0) = schedule (count s0)) /\
  (forall rng_key state log s' log',
      kernel rng_key state logdensity_fn n_steps schedule log
      = Some (s', log') ->
      count s' = counter_add (count state) 1 /\
      (noise_contraction s', noise_sigma s') = schedule (count s') /\
      (counter_fits (count state + 1) ->
       count s' = (count state + 1)%Z /\ (count state <= count s')%Z) /\
      (forall bits,
          counter_bits = Some bits ->
          count state = (2 ^ (Z.pos bits - 1) - 1)%Z ->
          count s' = (- 2 ^ (Z.pos bits - 1))%Z)).
Proof.
  split.
  - intros position rng_key log. simpl.
    destruct (jax_value_and_grad logdensity_fn position) as [value grad].
    destruct (schedule 0%Z) as [contraction sigma] eqn:Hs.
    eexists. split; [reflexivity|]. simpl. split; [reflexivity|].
    symmetry. exact Hs.
  - intros rng_key state log s' log' H. apply kernel_inv in H.
    destruct H as (k1 & k2 & k3 & np & start & den & l1 & l2 & l3 & H).
    destruct H as (_ & _ & _ & _ & _ & ->). simpl.
    split; [reflexivity|].
    split; [symmetry; apply surjective_pairing|].
    split.
    + intros Hfits. rewrite (counter_add_fits _ _ Hfits). lia.
    + intros bits Hbits Hlast. unfold counter_add.
      rewrite Hbits, Hlast. apply wrap_signed_past_largest.
Qed.

End Emitted.

Lemma kernel_logdensity_of_input_position_witness :
  kernel (E := Concrete.collaborators) 0%nat Concrete.state0
    Concrete.flat_target 2 Concrete.schedule []
  = Some (Concrete.state1, Concrete.log1) /\
  logdensity Concrete.state1 = 0 /\
  logdensity_grad Concrete.state1 = Leaf [0].
Proof.
  split; [exact concrete_kernel_run|].
  exact (kernel_logdensity_of_input_position (E := Concrete.collaborators)
           0%nat Concrete.state0 Concrete.flat_target 2%nat Concrete.schedule
           [] Concrete.state1 Concrete.log1 concrete_kernel_run).
Defined.

Lemma traced_kernel_run :
  kernel (E := Concrete.traced_collaborators) 0%nat Concrete.state0
    Concrete.flat_target 2 Concrete.schedule []
  = Some (Concrete.state1, Concrete.log1).
Proof. run. reflexivity. Qed.

Lemma traced_first_count_fits :
  counter_fits (E := Concrete.traced_collaborators)
    (count Concrete.state0 + 1).
Proof. unfold counter_fits. simpl. lia. Qed.

Lemma count_and_schedule_witness :
  kernel (E := Concrete.traced_collaborators) 0%nat Concrete.state0
    Concrete.flat_target 2 Concrete.schedule []
  = Some (Concrete.state1, Concrete.log1) /\
  counter_fits (E := Concrete.traced_collaborators)
    (count Concrete.state0 + 1) /\
  count Concrete.state1 = (count Concrete.state0 + 1)%Z /\
  (count Concrete.state0 <= count Concrete.state1)%Z.
Proof.
  split; [exact traced_kernel_run|].
  split; [exact traced_first_count_fits|].
  exact (proj1 (proj2 (proj2
           (proj2 (count_and_schedule (E := Concrete.traced_collaborators)
                     Concrete.flat_target 2%nat Concrete.schedule)
              0%nat Concrete.state0 [] Concrete.state1 Concrete.log1
              traced_kernel_run)))
           traced_first_count_fits).
Defined.

(** C6, as stated, fails: under a 32-bit counter a transition from
    [count = 2147483647] emits [count = -2147483648], which is neither
    the input's count plus 1 nor at least the input's count. *)
Lemma count_wraps_at_largest_int32 :
  kernel (E := Concrete.traced_collaborators) 0%nat
    Concrete.last_count_state Concrete.flat_target 2 Concrete.schedule []
  = Some (Concrete.wrapped_count_state, Concrete.log1) /\
  count Concrete.wrapped_count_state
    <> (count Concrete.last_count_state + 1)%Z /\
  (count Concrete.wrapped_count_state < count Concrete.last_count_state)%Z.
Proof.
  split; [run; reflexivity|]. simpl. split; lia.
Qed.

(** ** What [step] returns *)

Lemma GibbsState_obj_six_fields (s : GibbsState) :
  exists items, GibbsState_obj s = PyTuple items /\ length items = 6%nat.
Proof. eexists. split; reflexivity. Qed.

(** C3. On the concrete collaborators, [step] returns the bare
    [GibbsState] of the kernel, a tuple of six fields: it does not unpack
    into two values and is no pair of a state and [None]. *)
Theorem step_returns_bare_state :
  step (as_top_level_api (E := Concrete.collaborators)
          Concrete.flat_target 2 Concrete.schedule)
    0%nat Concrete.state0 []
  = Some (Concrete.state1, Concrete.log1) /\
  unpack_pair (GibbsState_obj Concrete.state1) = None /\
  (forall s : GibbsState,
      GibbsState_obj Concrete.state1 <> PyTuple [GibbsState_obj s; PyNone]).
Proof.
  split; [exact concrete_kernel_run|]. split; [reflexivity|].
  intros s H. discriminate H.
Qed.

(** ** Key discipline *)

(** C4. On the concrete collaborators, [init_denoising] with key [2] hands
    that key to the noise generator and again to the Bernoulli draw, and
    [denoise] with key [3] hands that key to the sampler's [init] and again
    to [split]: in neither log are the consumed keys free of repetition. *)
Theorem init_denoising_and_denoise_reuse_their_key :
  init_denoising (E := Concrete.collaborators) 2%nat (Leaf [9 / 10])
    Concrete.state0 Concrete.flat_target []
  = Some (Leaf [9 / 10 / (9 / 10) + 0],
          [(GaussianNoise, 2%nat); (Bernoulli, 2%nat)]) /\
  ~ NoDup (map snd [(GaussianNoise, 2%nat); (Bernoulli, 2%nat)]) /\
  denoise (E := Concrete.collaborators) (fun s => s) 3%nat (Leaf [1])
    (Concrete.drift (fun _ => None) (1 / 100)) 2 []
  = Some (Leaf [1 + 1 / 100 + 1 / 100],
          [(SamplerInit, 3%nat); (Split, 3%nat);
           (SamplerStep, 31%nat); (SamplerStep, 32%nat)]) /\
  ~ NoDup (map snd [(SamplerInit, 3%nat); (Split, 3%nat);
                    (SamplerStep, 31%nat); (SamplerStep, 32%nat)]).
Proof.
  split; [run; reflexivity|].
  split.
  { simpl. intros H. inversion H as [| x l Hin _]; subst.
    apply Hin. left. reflexivity. }
  split; [run; reflexivity|].
  simpl. intros H. inversion H as [| x l Hin _]; subst.
  apply Hin. left. reflexivity.
Qed.

(** ** Maps over same-shaped structures *)

Lemma node_data_eqb_refl (d : node_data) : node_data_eqb d d = true.
Proof.
  destruct d as [| | ks]; simpl; trivial.
  destruct (list_eq_dec String.string_dec ks ks); [reflexivity | contradiction].
Qed.

Lemma tree_leaves_tree_map {A B} (f : A -> B) (t : pytree A) :
  tree_leaves (tree_map f t) = map f (tree_leaves t).
Proof.
  induction t as [a | d cs IH] using pytree_ind; simpl; [reflexivity|].
  induction IH as [| c cs Hc _ IHcs]; simpl; [reflexivity|].
  rewrite map_app, Hc, IHcs. reflexivity.
Qed.

Lemma tree_map_tree_map {A B C} (f : A -> B) (g : B -> C) (t : pytree A) :
  tree_map g (tree_map f t) = tree_map (fun a => g (f a)) t.
Proof.
  induction t as [a | d cs IH] using pytree_ind; simpl; [reflexivity|].
  f_equal. induction IH as [| c cs Hc _ IHcs]; simpl; [reflexivity|].
  rewrite Hc, IHcs. reflexivity.
Qed.

Lemma tree_map_ext {A B} (f g : A -> B) (t : pytree A) :
  (forall a, f a = g a) -> tree_map f t = tree_map g t.
Proof.
  intros Hfg.
  induction t as [a | d cs IH] using pytree_ind; simpl; [f_equal; apply Hfg|].
  f_equal. induction IH as [| c cs Hc _ IHcs]; simpl; [reflexivity|].
  rewrite Hc, IHcs. reflexivity.
Qed.

(** Scaling every element keeps the shape. *)
Lemma shape_tree_map_map (f : R -> R) (t : pytree array) :
  shape (tree_map (map f) t) = shape t.
Proof.
  unfold shape. rewrite tree_map_tree_map. apply tree_map_ext.
  intros a. apply length_map.
Qed.

(** A two-tree map whose function accepts equal-sized leaves succeeds on
    same-shaped trees, and what holds leaf by leaf holds of the result. *)
Lemma tree_map2_defined {C D} (f : array -> array -> option C)
    (m : C -> D) (phi : array -> D) :
  (forall x y, length x = length y ->
               exists z, f x y = Some z /\ m z = phi x) ->
  forall t u, shape t = shape u ->
    exists r, tree_map2 f t u = Some r /\ tree_map m r = tree_map phi t.
Proof.
  intros Hf. unfold shape.
  induction t as [a | d cs IH] using pytree_ind; intros [b | e us] Hs;
    simpl in Hs; try discriminate Hs.
  - injection Hs as Hlen. destruct (Hf a b Hlen) as [z [Hz Hm]].
    simpl. rewrite Hz. eexists. split; [reflexivity|]. simpl. now rewrite Hm.
  - injection Hs as <- Hcs. simpl. rewrite node_data_eqb_refl.
    assert (Hl : exists rs, map2_option (tree_map2 f) cs us = Some rs /\
                            map (tree_map m) rs = map (tree_map phi) cs).
    { revert us Hcs.
      induction IH as [| c cs Hc _ IHcs]; intros [| v us] Hcs;
        simpl in Hcs; try discriminate Hcs.
      - exists []. split; reflexivity.
      - injection Hcs as Hv Hus.
        destruct (Hc v Hv) as [r [Hr Hmr]].
        destruct (IHcs us Hus) as [rs [Hrs Hmrs]].
        exists (r :: rs). simpl. rewrite Hr, Hrs. split; [reflexivity|].
        simpl. now rewrite Hmr, Hmrs. }
    destruct Hl as [rs [Hrs Hmrs]]. rewrite Hrs. eexists.
    split; [reflexivity|]. simpl. now rewrite Hmrs.
Qed.

Lemma broadcast2_same_length (op : R -> R -> R) (x y : array) :
  length x = length y ->
  broadcast2 op x y = Some (map (fun p => op (fst p) (snd p)) (combine x y)).
Proof.
  intros H. unfold broadcast2. rewrite H, Nat.eqb_refl. reflexivity.
Qed.

Lemma broadcast2_same_length_defined (op : R -> R -> R) (x y : array) :
  length x = length y ->
  exists z, broadcast2 op x y = Some z /\ length z = length x.
Proof.
  intros H. rewrite broadcast2_same_length by exact H.
  eexists. split; [reflexivity|].
  rewrite length_map, length_combine, <- H. apply Nat.min_id.
Qed.

Lemma combine_select (c : bool) (x y : array) :
  length x = length y ->
  map (fun p => if c then fst p else snd p) (combine x y) = if c then x else y.
Proof.
  revert y. induction x as [| a x IH]; intros [| b y] H; simpl in H;
    try discriminate H.
  - destruct c; reflexivity.
  - injection H as H. simpl. rewrite (IH y H). destruct c; reflexivity.
Qed.

(** [jnp.where] mapped over two same-shaped trees with one scalar decision
    returns the first tree or the second, whole. *)
Lemma tree_map2_where (c : bool) (t u : pytree array) :
  shape t = shape u ->
  tree_map2 (jnp_where c) t u = Some (if c then t else u).
Proof.
  unfold shape. revert u.
  induction t as [a | d cs IH] using pytree_ind; intros [b | e us] Hs;
    simpl in Hs; try discriminate Hs.
  - injection Hs as Hlen. simpl. unfold jnp_where.
    rewrite broadcast2_same_length by exact Hlen.
    rewrite combine_select by exact Hlen. destruct c; reflexivity.
  - injection Hs as <- Hcs. simpl. rewrite node_data_eqb_refl.
    assert (Hl : map2_option (tree_map2 (jnp_where c)) cs us
                 = Some (if c then cs else us)).
    { revert us Hcs.
      induction IH as [| k cs Hk _ IHcs]; intros [| v us] Hcs;
        simpl in Hcs; try discriminate Hcs.
      - destruct c; reflexivity.
      - injection Hcs as Hv Hus. simpl.
        rewrite (Hk v Hv), (IHcs us Hus). destruct c; reflexivity. }
    rewrite Hl. destruct c; reflexivity.
Qed.

Lemma leaves_of_same_structure {A B D} (m : A -> D) (phi : B -> D)
    (r : pytree A) (t : pytree B) :
  tree_map m r = tree_map phi t ->
  length (tree_leaves r) = length (tree_leaves t).
Proof.
  intros H. apply (f_equal tree_leaves) in H.
  rewrite !tree_leaves_tree_map in H.
  apply (f_equal (@length D)) in H. now rewrite !length_map in H.
Qed.

Lemma gaussian_term_defined (a b : pytree array) (scale : R) :
  shape a = shape b -> tree_leaves a <> [] ->
  exists v, gaussian_term a b scale = Some v.
Proof.
  intros Hs Hl. unfold gaussian_term.
  destruct (tree_map2_defined
              (fun x y =>
                 let? d := broadcast2 Rminus x y in
                 Some (- (jnp_linalg_norm d / (2 * scale ^ 2))))
              (fun _ => tt) (fun _ => tt)) with (t := a) (u := b)
    as [r [Hr Hstruct]]; [| exact Hs |].
  - intros x y Hlen.
    destruct (broadcast2_same_length_defined Rminus x y Hlen) as [z [Hz _]].
    rewrite Hz. simpl. eexists. split; reflexivity.
  - rewrite Hr. simpl. unfold tree_reduce.
    apply leaves_of_same_structure in Hstruct.
    destruct (tree_leaves r) as [| v l].
    + destruct (tree_leaves a); [contradiction | discriminate].
    + eexists. reflexivity.
Qed.

(** ** The accept/reject selection *)

Section Selection.

Context {E : Collaborators}.

Lemma bind_run {A B} (c : M A) (k : A -> M B) log a log1 r :
  c log = Some (a, log1) -> k a log1 = r -> (x <- c ;; k x) log = r.
Proof. intros Hc Hk. unfold bind. rewrite Hc. exact Hk. Qed.

Lemma bind_lift {A B} (o : option A) (k : A -> M B) log a r :
  o = Some a -> k a log = r -> (x <- lift o ;; k x) log = r.
Proof. intros -> Hk. exact Hk. Qed.

(** C7. When the noised position, the state's position and the drawn
    noise have one shape (and at least one leaf), [init_denoising]
    returns, and what it returns is decided by the single Bernoulli draw:
    the whole proposal on acceptance, the whole position of the state
    otherwise. *)
Theorem init_denoising_selects
    rng_key noised_position state logdensity_fn log :
  shape noised_position = shape (position state) ->
  shape (generate_gaussian_noise rng_key noised_position 0
           (noise_sigma state / noise_contraction state))
    = shape noised_position ->
  tree_leaves noised_position <> [] ->
  exists proposal log_accept,
    tree_map2
      (fun x n =>
         broadcast2 Rplus (map (fun xi => xi / noise_contraction state) x) n)
      noised_position
      (generate_gaussian_noise rng_key noised_position 0
         (noise_sigma state / noise_contraction state))
    = Some proposal /\
    init_denoising rng_key noised_position state logdensity_fn log
    = Some (if jax_random_bernoulli rng_key (prob_accept log_accept)
            then proposal else position state,
            log ++ [(GaussianNoise, rng_key); (Bernoulli, rng_key)]).
Proof.
  intros Hpos Hnoise Hleaves.
  set (alpha := noise_contraction state) in *.
  set (sigma := noise_sigma state) in *.
  set (noise := generate_gaussian_noise rng_key noised_position 0
                  (sigma / alpha)) in *.
  destruct (tree_map2_defined
              (fun x n => broadcast2 Rplus (map (fun xi => xi / alpha) x) n)
              (@length R) (@length R))
    with (t := noised_position) (u := noise) as [proposal [Hprop Hshape]].
  { intros x y Hlen.
    destruct (broadcast2_same_length_defined Rplus
                (map (fun xi => xi / alpha) x) y) as [z [Hz Hlz]].
    - now rewrite length_map.
    - exists z. split; [exact Hz|]. now rewrite Hlz, length_map. }
  { symmetry. exact Hnoise. }
  change (shape proposal = shape noised_position) in Hshape.
  assert (Hlp : tree_leaves (position state) <> []).
  { intros Hnil. apply Hleaves.
    apply (leaves_of_same_structure _ _ noised_position (position state))
      in Hpos.
    rewrite Hnil in Hpos. now apply length_zero_iff_nil. }
  assert (Hlq : tree_leaves proposal <> []).
  { intros Hnil. apply Hleaves.
    apply (leaves_of_same_structure _ _ proposal noised_position) in Hshape.
    rewrite Hnil in Hshape. apply length_zero_iff_nil. now symmetry. }
  assert (Hscale : forall (f : R -> R) t, tree_leaves t <> [] ->
                     tree_leaves (tree_map (map f) t) <> []).
  { intros f t Ht Hnil. apply Ht.
    rewrite tree_leaves_tree_map in Hnil. now apply map_eq_nil in Hnil. }
  destruct (gaussian_term_defined (position state)
              (tree_map (map (fun xi => xi / alpha)) noised_position)
              (sigma / alpha)) as [g1 Hg1];
    [rewrite shape_tree_map_map; now symmetry | exact Hlp |].
  destruct (gaussian_term_defined proposal
              (tree_map (map (fun xi => xi / alpha)) noised_position)
              (sigma / alpha)) as [g2 Hg2];
    [rewrite shape_tree_map_map; exact Hshape | exact Hlq |].
  destruct (gaussian_term_defined
              (tree_map (map (fun xi => xi * alpha)) proposal)
              noised_position sigma) as [g3 Hg3];
    [rewrite shape_tree_map_map; exact Hshape | now apply Hscale |].
  destruct (gaussian_term_defined
              (tree_map (map (fun xi => xi * alpha)) (position state))
              noised_position sigma) as [g4 Hg4];
    [rewrite shape_tree_map_map; now symmetry | now apply Hscale |].
  exists proposal,
    (logdensity_fn proposal - logdensity_fn (position state)
     + (g1 - g2) + (g3 - g4)).
  split; [exact Hprop|].
  unfold init_denoising.
  eapply bind_run; [apply gaussian_noise_run|].
  eapply bind_lift; [exact Hprop|].
  eapply bind_lift; [exact Hg1|].
  eapply bind_lift; [exact Hg2|].
  eapply bind_lift; [exact Hg3|].
  eapply bind_lift; [exact Hg4|].
  eapply bind_run; [apply random_bernoulli_run|].
  rewrite tree_map2_where by (rewrite Hshape; exact Hpos).
  simpl. unfold ret. rewrite <- app_assoc. reflexivity.
Qed.

End Selection.

(** ** Runs of [init_denoising] on well-shaped inputs *)

Section Init_denoising_runs.

Context {E : Collaborators}.

(** Once the proposal is there and has the shape of the noised position
    and of the state's position, the four Gaussian terms are defined and
    the run ends in the selection between proposal and position. *)
Lemma init_denoising_from_proposal
    rng_key noised_position state logdensity_fn log proposal :
  tree_map2
    (fun x n =>
       broadcast2 Rplus (map (fun xi => xi / noise_contraction state) x) n)
    noised_position
    (generate_gaussian_noise rng_key noised_position 0
       (noise_sigma state / noise_contraction state))
  = Some proposal ->
  shape proposal = shape noised_position ->
  shape noised_position = shape (position state) ->
  tree_leaves noised_position <> [] ->
  exists log_accept,
    init_denoising rng_key noised_position state logdensity_fn log
    = Some (if jax_random_bernoulli rng_key (prob_accept log_accept)
            then proposal else position state,
            log ++ [(GaussianNoise, rng_key); (Bernoulli, rng_key)]).
Proof.
  intros Hprop Hshape Hpos Hleaves.
  assert (Hcount : forall t u : pytree array,
             shape t = shape u -> tree_leaves u <> [] -> tree_leaves t <> []).
  { intros t u Htu Hu Hnil. apply Hu.
    apply (leaves_of_same_structure _ _ t u) in Htu.
    rewrite Hnil in Htu. apply length_zero_iff_nil. now symmetry. }
  assert (Hscaled : forall (f : R -> R) t u,
             shape t = shape u -> tree_leaves u <> [] ->
             tree_leaves (tree_map (map f) t) <> []).
  { intros f t u Htu Hu. apply (Hcount _ u); [| exact Hu].
    now rewrite shape_tree_map_map. }
  destruct (gaussian_term_defined (position state)
              (tree_map (map (fun xi => xi / noise_contraction state))
                 noised_position)
              (noise_sigma state / noise_contraction state)) as [g1 Hg1];
    [rewrite shape_tree_map_map; now symmetry
    | apply (Hcount _ noised_position); [now symmetry | exact Hleaves] |].
  destruct (gaussian_term_defined proposal
              (tree_map (map (fun xi => xi / noise_contraction state))
                 noised_position)
              (noise_sigma state / noise_contraction state)) as [g2 Hg2];
    [rewrite shape_tree_map_map; exact Hshape
    | apply (Hcount _ noised_position); assumption |].
  destruct (gaussian_term_defined
              (tree_map (map (fun xi => xi * noise_contraction state)) proposal)
              noised_position (noise_sigma state)) as [g3 Hg3];
    [rewrite shape_tree_map_map; exact Hshape
    | apply (Hscaled _ _ noised_position); assumption |].
  destruct (gaussian_term_defined
              (tree_map (map (fun xi => xi * noise_contraction state))
                 (position state))
              noised_position (noise_sigma state)) as [g4 Hg4];
    [rewrite shape_tree_map_map; now symmetry
    | apply (Hscaled _ _ noised_position); [now symmetry | exact Hleaves] |].
  exists (logdensity_fn proposal - logdensity_fn (position state)
          + (g1 - g2) + (g3 - g4)).
  unfold init_denoising.
  eapply bind_run; [apply gaussian_noise_run|].
  eapply bind_lift; [exact Hprop|].
  eapply bind_lift; [exact Hg1|].
  eapply bind_lift; [exact Hg2|].
  eapply bind_lift; [exact Hg3|].
  eapply bind_lift; [exact Hg4|].
  eapply bind_run; [apply random_bernoulli_run|].
  rewrite tree_map2_where by (rewrite Hshape; exact Hpos).
  simpl. unfold ret. rewrite <- app_assoc. reflexivity.
Qed.

(** The proposal of [init_denoising] is defined when the drawn noise has
    the shape of the noised position, and has that shape too. *)
Lemma proposal_defined rng_key noised_position state :
  shape (generate_gaussian_noise rng_key noised_position 0
           (noise_sigma state / noise_contraction state))
    = shape noised_position ->
  exists proposal,
    tree_map2
      (fun x n =>
         broadcast2 Rplus (map (fun xi => xi / noise_contraction state) x) n)
      noised_position
      (generate_gaussian_noise rng_key noised_position 0
         (noise_sigma state / noise_contraction state))
    = Some proposal /\
    shape proposal = shape noised_position.
Proof.
  intros Hnoise.
  destruct (tree_map2_defined
              (fun x n =>
                 broadcast2 Rplus
                   (map (fun xi => xi / noise_contraction state) x) n)
              (@length R) (@length R))
    with (t := noised_position)
         (u := generate_gaussian_noise rng_key noised_position 0
                 (noise_sigma state / noise_contraction state))
    as [proposal [Hprop Hshape]].
  { intros x y Hlen.
    destruct (broadcast2_same_length_defined Rplus
                (map (fun xi => xi / noise_contraction state) x) y)
      as [z [Hz Hlz]].
    - now rewrite length_map.
    - exists z. split; [exact Hz|]. now rewrite Hlz, length_map. }
  { symmetry. exact Hnoise. }
  exists proposal. split; [exact Hprop | exact Hshape].
Qed.

Lemma init_denoising_returns
    rng_key noised_position state logdensity_fn log :
  shape noised_position = shape (position state) ->
  shape (generate_gaussian_noise rng_key noised_position 0
           (noise_sigma state / noise_contraction state))
    = shape noised_position ->
  tree_leaves noised_position <> [] ->
  exists start,
    init_denoising rng_key noised_position state logdensity_fn log
    = Some (start, log ++ [(GaussianNoise, rng_key); (Bernoulli, rng_key)]) /\
    shape start = shape (position state).
Proof.
  intros Hpos Hnoise Hleaves.
  destruct (proposal_defined rng_key noised_position state Hnoise)
    as [proposal [Hprop Hshape]].
  destruct (init_denoising_from_proposal rng_key noised_position state
              logdensity_fn log proposal Hprop Hshape Hpos Hleaves)
    as [la Hrun].
  eexists. split; [exact Hrun|].
  destruct (jax_random_bernoulli rng_key (prob_accept la));
    [now rewrite Hshape | reflexivity].
Qed.

End Init_denoising_runs.

(** ** The inner sampler *)

Section Sampler.

Context {E : Collaborators}.

(** C9. The inner sampler of the kernel is MALA over the tethered
    density of the current noised position, at step size [1/100],
    whatever the target, [n_steps] and the schedule.  A kernel invocation
    that emits a state has started exactly that sampler at the output of
    [init_denoising], has run its transitions over the keys split from the
    third sub-key, and emits the position of its last state.  And the
    kernel asks the factory for nothing else: a factory that agrees with
    [mala] on that sampler gives the same run. *)
Theorem kernel_inner_sampler_fixed
    (other : (pytree array -> option R) -> R ->
             SamplingAlgorithm option PRNGKey MALAState (MALAState * MALAInfo))
    (logdensity_fn : pytree array -> R) (n_steps : nat)
    (schedule : Z -> R * R) (rng_key : PRNGKey) (state : GibbsState)
    (log : use_log) :
  (forall s' log',
      kernel rng_key state logdensity_fn n_steps schedule log
      = Some (s', log') ->
      exists key_noiser key_init key_denoiser noised log1 start log2 s0 sN,
        jax_random_split rng_key 3 = [key_noiser; key_init; key_denoiser] /\
        noiser key_noiser state (log ++ [(Split, rng_key)])
        = Some (noised, log1) /\
        init_denoising key_init noised state logdensity_fn log1
        = Some (start, log2) /\
        init (mala (conditional_logprob logdensity_fn
                      (noise_contraction state) (noise_sigma state) noised)
                (1 / 100))
          start (Some key_denoiser) = Some s0 /\
        sampler_chain
          (mala (conditional_logprob logdensity_fn
                   (noise_contraction state) (noise_sigma state) noised)
             (1 / 100))
          s0 (jax_random_split key_denoiser n_steps) = Some sN /\
        position s' = mala_position sN) /\
  ((forall noised_position,
       other (conditional_logprob logdensity_fn (noise_contraction state)
                (noise_sigma state) noised_position) (1 / 100)
       = mala (conditional_logprob logdensity_fn (noise_contraction state)
                 (noise_sigma state) noised_position) (1 / 100)) ->
   kernel (E := with_mala E other) rng_key state logdensity_fn n_steps
     schedule log
   = kernel (E := E) rng_key state logdensity_fn n_steps schedule log).
Proof.
  split.
  - intros s' log' H. apply kernel_inv in H.
    destruct H as (k1 & k2 & k3 & np & start & den & l1 & l2 & l3 & H).
    destruct H as (Hsplit & Hn & Hi & Hd & _ & ->).
    apply denoise_chain_inv in Hd. destruct Hd as (s0 & sN & H0 & HN & ->).
    exists k1, k2, k3, np, l1, start, l2, s0, sN.
    repeat split; assumption.
  - intros Hsame. unfold kernel.
    change (@jax_value_and_grad (with_mala E other))
      with (@jax_value_and_grad E).
    change (@bind (with_mala E other)) with (@bind E).
    change (@ret (with_mala E other)) with (@ret E).
    change (@raise (with_mala E other)) with (@raise E).
    change (@random_split (with_mala E other)) with (@random_split E).
    change (@noiser (with_mala E other)) with (@noiser E).
    change (@init_denoising (with_mala E other)) with (@init_denoising E).
    change (@denoise (with_mala E other)) with (@denoise E).
    change (@mala_position (with_mala E other)) with (@mala_position E).
    change (@mala (with_mala E other)) with other.
    change (@MALAState (with_mala E other)) with (@MALAState E).
    change (@MALAInfo (with_mala E other)) with (@MALAInfo E).
    change (@PRNGKey (with_mala E other)) with (@PRNGKey E).
    change (@counter_add (with_mala E other)) with (@counter_add E).
    destruct (jax_value_and_grad logdensity_fn (position state)) as [v g].
    unfold bind at 1 5.
    destruct (random_split rng_key 3 log) as [[keys log1] |]; [| reflexivity].
    destruct keys as [| k1 [| k2 [| k3 [| k4 ks]]]]; try reflexivity.
    unfold bind at 1 4.
    destruct (noiser k1 state log1) as [[noised log2] |]; [| reflexivity].
    rewrite Hsame. reflexivity.
Qed.

(** *** The kernel returns on well-formed inputs *)



Lemma noiser_returns rng_key state log :
  shape (generate_gaussian_noise rng_key (position state) 0
           (noise_sigma state))
    = shape (position state) ->
  exists noised,
    noiser rng_key state log
    = Some (noised, log ++ [(GaussianNoise, rng_key)]) /\
    shape noised = shape (position state).
Proof.
  intros Hnoise.
  destruct (tree_map2_defined
              (fun x n =>
                 broadcast2 Rplus
                   (map (Rmult (noise_contraction state)) x) n)
              (@length R) (@length R))
    with (t := position state)
         (u := generate_gaussian_noise rng_key (position state) 0
                 (noise_sigma state)) as [noised [Hn Hshape]].
  { intros x y Hlen.
    destruct (broadcast2_same_length_defined Rplus
                (map (Rmult (noise_contraction state)) x) y)
      as [z [Hz Hlz]].
    - now rewrite length_map.
    - exists z. split; [exact Hz|]. now rewrite Hlz, length_map. }
  { symmetry. exact Hnoise. }
  exists noised. split; [| exact Hshape].
  unfold noiser. eapply bind_run; [apply gaussian_noise_run|].
  eapply eq_trans; [apply (f_equal (fun o => lift o _)); exact Hn|].
  reflexivity.
Qed.


End Sampler.

Lemma concrete_factories_agree (g : pytree array -> option R) :
  Concrete.drift_or_stay g (1 / 100) = Concrete.drift g (1 / 100).
Proof.
  unfold Concrete.drift_or_stay.
  destruct (Req_dec_T (1 / 100) (1 / 100)) as [_ | Hne];
    [reflexivity | contradiction Hne; reflexivity].
Qed.

(** The two concrete factories are different samplers at other step
    sizes. *)
Lemma concrete_factories_differ (g : pytree array -> option R) :
  step (Concrete.drift_or_stay g 1) 0%nat (Leaf [0])
  <> step (Concrete.drift g 1) 0%nat (Leaf [0]).
Proof.
  unfold Concrete.drift_or_stay.
  destruct (Req_dec_T 1 (1 / 100)) as [Heq | _]; [lra|].
  simpl. intros H. injection H as H. lra.
Qed.

Lemma kernel_inner_sampler_fixed_witness :
  kernel (E := Concrete.collaborators) 0%nat Concrete.state0
    Concrete.flat_target 2 Concrete.schedule []
  = Some (Concrete.state1, Concrete.log1) /\
  (exists key_noiser key_init key_denoiser noised log1 start log2 s0 sN,
      Concrete.split 0 3 = [key_noiser; key_init; key_denoiser] /\
      noiser (E := Concrete.collaborators) key_noiser Concrete.state0
        ([] ++ [(Split, 0%nat)])
      = Some (noised, log1) /\
      init_denoising (E := Concrete.collaborators) key_init noised
        Concrete.state0 Concrete.flat_target log1
      = Some (start, log2) /\
      init (Concrete.drift
              (conditional_logprob Concrete.flat_target
                 (noise_contraction Concrete.state0)
                 (noise_sigma Concrete.state0) noised)
              (1 / 100))
        start (Some key_denoiser) = Some s0 /\
      sampler_chain
        (Concrete.drift
           (conditional_logprob Concrete.flat_target
              (noise_contraction Concrete.state0)
              (noise_sigma Concrete.state0) noised)
           (1 / 100))
        s0 (Concrete.split key_denoiser 2) = Some sN /\
      position Concrete.state1 = sN) /\
  (forall noised_position,
      Concrete.drift_or_stay
        (conditional_logprob Concrete.flat_target
           (noise_contraction Concrete.state0) (noise_sigma Concrete.state0)
           noised_position) (1 / 100)
      = Concrete.drift
          (conditional_logprob Concrete.flat_target
             (noise_contraction Concrete.state0) (noise_sigma Concrete.state0)
             noised_position) (1 / 100)) /\
  kernel (E := with_mala Concrete.collaborators Concrete.drift_or_stay)
    0%nat Concrete.state0 Concrete.flat_target 2 Concrete.schedule []
  = kernel (E := Concrete.collaborators)
      0%nat Concrete.state0 Concrete.flat_target 2 Concrete.schedule [].
Proof.
  split; [exact concrete_kernel_run|].
  split.
  - exact (proj1 (kernel_inner_sampler_fixed (E := Concrete.collaborators)
                    Concrete.drift_or_stay Concrete.flat_target 2%nat
                    Concrete.schedule 0%nat Concrete.state0 [])
             Concrete.state1 Concrete.log1 concrete_kernel_run).
  - split; [intros noised_position; apply concrete_factories_agree|].
    apply (proj2 (kernel_inner_sampler_fixed (E := Concrete.collaborators)
                    Concrete.drift_or_stay Concrete.flat_target 2%nat
                    Concrete.schedule 0%nat Concrete.state0 [])).
    intros noised_position. apply concrete_factories_agree.
Defined.

Lemma init_denoising_selects_witness :
  shape (position Concrete.pair_state) = shape (position Concrete.pair_state) /\
  tree_leaves (position Concrete.pair_state) <> [] /\
  exists proposal log_accept,
    tree_map2
      (fun x n =>
         broadcast2 Rplus
           (map (fun xi => xi / noise_contraction Concrete.pair_state) x) n)
      (position Concrete.pair_state)
      (Concrete.noise 1%nat (position Concrete.pair_state) 0
         (noise_sigma Concrete.pair_state
          / noise_contraction Concrete.pair_state))
    = Some proposal /\
    init_denoising (E := Concrete.collaborators) 1%nat
      (position Concrete.pair_state) Concrete.pair_state
      Concrete.flat_target []
    = Some (if Concrete.bernoulli 1%nat
                 (prob_accept (E := Concrete.collaborators) log_accept)
            then proposal else position Concrete.pair_state,
            [] ++ [(GaussianNoise, 1%nat); (Bernoulli, 1%nat)]).
Proof.
  split; [reflexivity|]. split; [discriminate|].
  apply (init_denoising_selects (E := Concrete.collaborators) 1%nat
           (position Concrete.pair_state) Concrete.pair_state
           Concrete.flat_target []).
  - reflexivity.
  - reflexivity.
  - discriminate.
Defined.

(** * Further properties of the module *)

(** ** Two-tree maps, in general *)

Lemma node_data_eqb_eq (d e : node_data) : node_data_eqb d e = true -> d = e.
Proof.
  destruct d as [| | ks], e as [| | ks']; simpl; try discriminate; trivial.
  destruct (list_eq_dec String.string_dec ks ks') as [-> | _];
    [reflexivity | discriminate].
Qed.

Lemma node_data_eqb_sym (d e : node_data) :
  node_data_eqb d e = node_data_eqb e d.
Proof.
  destruct (node_data_eqb d e) eqn:Hde.
  - apply node_data_eqb_eq in Hde. subst. symmetry. apply node_data_eqb_refl.
  - destruct (node_data_eqb e d) eqn:Hed; [| reflexivity].
    apply node_data_eqb_eq in Hed. subst.
    rewrite node_data_eqb_refl in Hde. discriminate.
Qed.

(** Swapping the two trees and the two arguments of the function changes
    nothing, failures included. *)
Lemma tree_map2_swap {A B C} (f : A -> B -> option C) (g : B -> A -> option C) :
  (forall a b, f a b = g b a) ->
  forall t u, tree_map2 f t u = tree_map2 g u t.
Proof.
  intros Hfg.
  induction t as [a | d cs IH] using pytree_ind; intros [b | e us]; simpl;
    try reflexivity.
  - now rewrite Hfg.
  - rewrite (node_data_eqb_sym e d).
    destruct (node_data_eqb d e) eqn:Hde; [| reflexivity].
    apply node_data_eqb_eq in Hde. subst e. f_equal.
    revert us. induction IH as [| c cs Hc _ IHcs]; intros [| v us]; simpl;
      try reflexivity.
    now rewrite Hc, IHcs.
Qed.


(** A tree mapped against an image of itself. *)
Lemma tree_map2_diag {A B C} (f : A -> B -> option C) (h : A -> B) (g : A -> C) :
  (forall a, f a (h a) = Some (g a)) ->
  forall t, tree_map2 f t (tree_map h t) = Some (tree_map g t).
Proof.
  intros Hf.
  induction t as [a | d cs IH] using pytree_ind; simpl.
  - now rewrite Hf.
  - rewrite node_data_eqb_refl.
    assert (Hl : map2_option (tree_map2 f) cs (map (tree_map h) cs)
                 = Some (map (tree_map g) cs)).
    { induction IH as [| c cs Hc _ IHcs]; simpl; [reflexivity|].
      now rewrite Hc, IHcs. }
    now rewrite Hl.
Qed.

(** A successful two-tree map has as many leaves as either argument, each
    one an output of the function. *)
Lemma tree_map2_leaves {A B C} (f : A -> B -> option C) (P : C -> Prop) :
  (forall a b c, f a b = Some c -> P c) ->
  forall t u r, tree_map2 f t u = Some r ->
    Forall P (tree_leaves r) /\
    length (tree_leaves r) = length (tree_leaves t) /\
    length (tree_leaves r) = length (tree_leaves u).
Proof.
  intros Hf.
  induction t as [a | d cs IH] using pytree_ind; intros [b | e us] r H;
    simpl in H; try discriminate H.
  - destruct (f a b) as [c |] eqn:Hc; [| discriminate H].
    injection H as <-. simpl. repeat split; trivial.
    constructor; [eapply Hf; exact Hc | constructor].
  - destruct (node_data_eqb d e); [| discriminate H].
    destruct (map2_option (tree_map2 f) cs us) as [rs |] eqn:Hrs;
      [| discriminate H].
    injection H as <-. simpl.
    revert us rs Hrs.
    induction IH as [| c cs Hc _ IHcs]; intros [| v us] rs Hrs;
      simpl in Hrs; try discriminate Hrs.
    + injection Hrs as <-. simpl. repeat split; trivial.
    + destruct (tree_map2 f c v) as [r |] eqn:Hr; [| discriminate Hrs].
      destruct (map2_option (tree_map2 f) cs us) as [rs' |] eqn:Hrs';
        [| discriminate Hrs].
      injection Hrs as <-. simpl.
      destruct (Hc v r Hr) as (HP & Hl1 & Hl2).
      destruct (IHcs us rs' Hrs') as (HPs & Hls1 & Hls2).
      rewrite !length_app. repeat split.
      * apply Forall_app. split; assumption.
      * now rewrite Hl1, Hls1.
      * now rewrite Hl2, Hls2.
Qed.

(** ** Sums *)






(** ** The Gaussian term *)

Lemma broadcast2_minus_swap (x y : array) :
  broadcast2 Rminus y x = option_map (map Ropp) (broadcast2 Rminus x y).
Proof.
  unfold broadcast2. rewrite (Nat.eqb_sym (length y) (length x)).
  destruct (length x =? length y)%nat eqn:Hxy.
  - simpl. f_equal. clear Hxy. revert y.
    induction x as [| a x IH]; intros [| b y]; simpl; try reflexivity.
    rewrite IH. f_equal. lra.
  - destruct (length x =? 1)%nat eqn:Hx, (length y =? 1)%nat eqn:Hy; simpl.
    + apply Nat.eqb_eq in Hx, Hy. apply Nat.eqb_neq in Hxy. lia.
    + f_equal. rewrite map_map. apply map_ext. intros v. lra.
    + f_equal. rewrite map_map. apply map_ext. intros v. lra.
    + reflexivity.
Qed.

Lemma jnp_linalg_norm_opp (d : array) :
  jnp_linalg_norm (map Ropp d) = jnp_linalg_norm d.
Proof.
  unfold jnp_linalg_norm. rewrite map_map. f_equal. f_equal.
  apply map_ext. intros v. lra.
Qed.

(** X1. The Gaussian term does not depend on the order of its two
    structures, whether it returns or raises. *)
Theorem gaussian_term_symmetric (a b : pytree array) (scale : R) :
  gaussian_term a b scale = gaussian_term b a scale.
Proof.
  unfold gaussian_term. f_equal. apply tree_map2_swap.
  intros x y. rewrite (broadcast2_minus_swap y x).
  destruct (broadcast2 Rminus y x) as [d |]; simpl; [| reflexivity].
  now rewrite jnp_linalg_norm_opp.
Qed.



(** A fold over the result of a two-tree map raises as soon as one of the
    two trees has no leaf. *)
Lemma tree_reduce_of_map2_without_leaf {A B C}
    (f : A -> B -> option C) (g : C -> C -> C) (t : pytree A) (u : pytree B) :
  tree_leaves t = [] \/ tree_leaves u = [] ->
  (let? r := tree_map2 f t u in tree_reduce g r) = None.
Proof.
  intros Hnil.
  destruct (tree_map2 f t u) as [r |] eqn:Hr; simpl; [| reflexivity].
  apply (tree_map2_leaves _ (fun _ => True)) in Hr; [| trivial].
  destruct Hr as (_ & Hlt & Hlu).
  assert (Hlen : length (tree_leaves r) = 0%nat).
  { destruct Hnil as [Hn | Hn]; rewrite Hn in *; assumption. }
  apply length_zero_iff_nil in Hlen. unfold tree_reduce. now rewrite Hlen.
Qed.

(** X3. The Gaussian term raises when one of its structures has no leaf,
    such as an empty tuple: there is nothing for [tree_reduce] to fold. *)
Theorem gaussian_term_raises_without_leaf (a b : pytree array) (scale : R) :
  tree_leaves a = [] \/ tree_leaves b = [] ->
  gaussian_term a b scale = None.
Proof.
  intros Hnil. unfold gaussian_term.
  now apply tree_reduce_of_map2_without_leaf.
Qed.






Lemma gaussian_term_raises_without_leaf_witness :
  (tree_leaves (Node NTuple [] : pytree array) = [] \/
   tree_leaves (Node NTuple [] : pytree array) = []) /\
  gaussian_term (Node NTuple []) (Node NTuple []) 1 = None.
Proof.
  split; [left; reflexivity|].
  exact (gaussian_term_raises_without_leaf (Node NTuple []) (Node NTuple [])
           1 (or_introl eq_refl)).
Defined.


(** ** The tethered density *)







(** ** The acceptance rule *)

Section Acceptance_rule.

Context {E : Collaborators}.

(** X7. For a float format that can hold 1, the acceptance probability of
    [init_denoising] is the Metropolis-Hastings one, [min(1, exp
    log_accept)], overflow of the exponential included. *)
Theorem prob_accept_metropolis (log_accept : R) :
  1 <= float_max ->
  prob_accept log_accept = Finite (Rmin 1 (exp log_accept)).
Proof.
  intros Hmax. unfold prob_accept, jnp_exp.
  assert (Hpos := exp_pos log_accept).
  destruct (Rle_dec (exp log_accept) float_max) as [_ | Hover]; simpl.
  - rewrite Rmax_left by lra. now rewrite Rmin_comm.
  - rewrite Rmin_left by lra. reflexivity.
Qed.

End Acceptance_rule.

Lemma prob_accept_metropolis_witness :
  1 <= float_max (Collaborators := Concrete.collaborators) /\
  prob_accept (E := Concrete.collaborators) (-1) = Finite (Rmin 1 (exp (-1))).
Proof.
  assert (H : 1 <= float_max (Collaborators := Concrete.collaborators)).
  { change (1 <= 2 ^ 128). apply pow_R1_Rle. lra. }
  split; [exact H|].
  exact (prob_accept_metropolis (E := Concrete.collaborators) (-1) H).
Defined.

(** ** The noising log-density *)

Lemma broadcast2_scalar_r (op : R -> R -> R) (c : array) (a : R) :
  broadcast2 op c [a] = Some (map (fun ci => op ci a) c).
Proof.
  unfold broadcast2. simpl.
  destruct c as [| c0 [| c1 c']]; reflexivity.
Qed.

(** X8. [noiser_logpdf] returns a value only when both samples are bare
    arrays: on any container, as noised or as clean sample, it raises. *)
Theorem noiser_logpdf_returns_only_on_arrays
    (state : GibbsState) (sample_noised sample_clean : pytree array) (v : R) :
  noiser_logpdf state sample_noised sample_clean = Some v ->
  exists x c, sample_noised = Leaf x /\ sample_clean = Leaf c.
Proof.
  unfold noiser_logpdf.
  destruct sample_clean as [c | d cs]; simpl; [| discriminate].
  rewrite broadcast2_scalar_r. simpl.
  destruct sample_noised as [x | e xs]; [| discriminate].
  intros _. exists x, c. split; reflexivity.
Qed.

Lemma noiser_logpdf_concrete_run :
  noiser_logpdf Concrete.wide_state (Leaf [0]) (Leaf [0])
  = Some (0 + norm_logpdf 0 (0 * 1) (2 ^ 2)).
Proof. reflexivity. Qed.

Lemma noiser_logpdf_returns_only_on_arrays_witness :
  noiser_logpdf Concrete.wide_state (Leaf [0]) (Leaf [0])
  = Some (0 + norm_logpdf 0 (0 * 1) (2 ^ 2)) /\
  exists x c,
    (Leaf [0] : pytree array) = Leaf x /\ (Leaf [0] : pytree array) = Leaf c.
Proof.
  split; [exact noiser_logpdf_concrete_run|].
  exact (noiser_logpdf_returns_only_on_arrays Concrete.wide_state
           (Leaf [0]) (Leaf [0]) _ noiser_logpdf_concrete_run).
Defined.

(** ** The noiser *)

Lemma broadcast2_plus_zeros (l x : array) :
  length l = length x ->
  broadcast2 Rplus l (map (fun _ => 0) x) = Some l.
Proof.
  intros Hlen. rewrite broadcast2_same_length by now rewrite length_map.
  f_equal. revert x Hlen.
  induction l as [| a l IH]; intros [| b x] Hlen; simpl in Hlen;
    try discriminate Hlen; simpl; [reflexivity|].
  injection Hlen as Hlen. rewrite (IH x Hlen). f_equal. lra.
Qed.

Section Noiser_facts.

Context {E : Collaborators}.

(** X9. When the generated noise is zero everywhere, [noiser] returns the
    position contracted by [noise_contraction], leaf by leaf. *)
Theorem noiser_without_noise rng_key state log :
  generate_gaussian_noise rng_key (position state) 0 (noise_sigma state)
    = tree_map (map (fun _ => 0)) (position state) ->
  noiser rng_key state log
  = Some (tree_map (map (Rmult (noise_contraction state))) (position state),
          log ++ [(GaussianNoise, rng_key)]).
Proof.
  intros Hzero. unfold noiser.
  eapply bind_run; [apply gaussian_noise_run|].
  rewrite Hzero.
  rewrite (tree_map2_diag _ (map (fun _ => 0))
             (map (Rmult (noise_contraction state)))); [reflexivity|].
  intros x. apply broadcast2_plus_zeros. apply length_map.
Qed.

(** X10. When the generated noise has the shape of the position, [noiser]
    returns a noised position of that same shape and hands its key to the
    noise generator only. *)
Theorem noiser_keeps_shape rng_key state log :
  shape (generate_gaussian_noise rng_key (position state) 0
           (noise_sigma state))
    = shape (position state) ->
  exists noised,
    noiser rng_key state log
    = Some (noised, log ++ [(GaussianNoise, rng_key)]) /\
    shape noised = shape (position state) /\
    length (tree_leaves noised) = length (tree_leaves (position state)).
Proof.
  intros Hnoise.
  destruct (noiser_returns rng_key state log Hnoise) as [noised [Hrun Hs]].
  exists noised. split; [exact Hrun|]. split; [exact Hs|].
  now apply (leaves_of_same_structure (@length R) (@length R)).
Qed.

(** ** The denoising initialiser *)

Lemma init_denoising_raises_without_leaf_aux
    rng_key noised_position state logdensity_fn log :
  tree_leaves noised_position = [] ->
  init_denoising rng_key noised_position state logdensity_fn log = None.
Proof.
  intros Hnil. unfold init_denoising.
  eapply bind_run; [apply gaussian_noise_run|].
  match goal with
  | |- context [tree_map2 ?f noised_position ?n] =>
      destruct (tree_map2 f noised_position n) as [proposal |]
  end; [| reflexivity].
  eapply bind_lift; [reflexivity|].
  assert (Hg : gaussian_term (position state)
                 (tree_map (map (fun xi => xi / noise_contraction state))
                    noised_position)
                 (noise_sigma state / noise_contraction state) = None).
  { unfold gaussian_term. apply tree_reduce_of_map2_without_leaf. right.
    rewrite tree_leaves_tree_map. unfold array in *. now rewrite Hnil. }
  unfold bind at 1. rewrite Hg. reflexivity.
Qed.

(** X11. [init_denoising] raises when the noised position has no leaf
    (an empty container), and so whenever the state's position has none:
    a Gaussian term has nothing to sum. *)
Theorem init_denoising_raises_without_leaf
    rng_key noised_position state logdensity_fn log :
  tree_leaves noised_position = [] \/ tree_leaves (position state) = [] ->
  init_denoising rng_key noised_position state logdensity_fn log = None.
Proof.
  intros [Hnil | Hnil].
  - now apply init_denoising_raises_without_leaf_aux.
  - unfold init_denoising.
    eapply bind_run; [apply gaussian_noise_run|].
    match goal with
    | |- context [tree_map2 ?f noised_position ?n] =>
        destruct (tree_map2 f noised_position n) as [proposal |]
    end; [| reflexivity].
    eapply bind_lift; [reflexivity|].
    assert (Hg : gaussian_term (position state)
                   (tree_map (map (fun xi => xi / noise_contraction state))
                      noised_position)
                   (noise_sigma state / noise_contraction state) = None).
    { unfold gaussian_term. apply tree_reduce_of_map2_without_leaf.
      now left. }
    unfold bind at 1. rewrite Hg. reflexivity.
Qed.


(** X13. On well-shaped inputs, what [init_denoising] returns has the
    shape of the state's position, whichever way the draw goes. *)
Theorem init_denoising_keeps_shape
    rng_key noised_position state logdensity_fn log start log' :
  shape noised_position = shape (position state) ->
  shape (generate_gaussian_noise rng_key noised_position 0
           (noise_sigma state / noise_contraction state))
    = shape noised_position ->
  init_denoising rng_key noised_position state logdensity_fn log
  = Some (start, log') ->
  shape start = shape (position state).
Proof.
  intros Hpos Hnoise Hrun.
  assert (Hleaves : tree_leaves noised_position <> []).
  { intros Hnil.
    rewrite (init_denoising_raises_without_leaf_aux rng_key noised_position
               state logdensity_fn log Hnil) in Hrun.
    discriminate Hrun. }
  destruct (init_denoising_returns rng_key noised_position state
              logdensity_fn log Hpos Hnoise Hleaves) as [r [Hr Hs]].
  rewrite Hr in Hrun. injection Hrun as <- _. exact Hs.
Qed.

End Noiser_facts.

Lemma noiser_without_noise_witness :
  Concrete.noise 1%nat (position Concrete.pair_state) 0
    (noise_sigma Concrete.pair_state)
  = tree_map (map (fun _ => 0)) (position Concrete.pair_state) /\
  noiser (E := Concrete.collaborators) 1%nat Concrete.pair_state []
  = Some (tree_map (map (Rmult (noise_contraction Concrete.pair_state)))
            (position Concrete.pair_state),
          [] ++ [(GaussianNoise, 1%nat)]).
Proof.
  split; [reflexivity|].
  exact (noiser_without_noise (E := Concrete.collaborators) 1%nat
           Concrete.pair_state [] eq_refl).
Defined.

Lemma noiser_keeps_shape_witness :
  shape (Concrete.noise 1%nat (position Concrete.pair_state) 0
           (noise_sigma Concrete.pair_state))
  = shape (position Concrete.pair_state) /\
  exists noised,
    noiser (E := Concrete.collaborators) 1%nat Concrete.pair_state []
    = Some (noised, [] ++ [(GaussianNoise, 1%nat)]) /\
    shape noised = shape (position Concrete.pair_state) /\
    length (tree_leaves noised)
    = length (tree_leaves (position Concrete.pair_state)).
Proof.
  split; [reflexivity|].
  exact (noiser_keeps_shape (E := Concrete.collaborators) 1%nat
           Concrete.pair_state [] eq_refl).
Defined.

Lemma init_denoising_raises_without_leaf_witness :
  (tree_leaves (Node NTuple [] : pytree array) = [] \/
   tree_leaves (position Concrete.empty_state) = []) /\
  init_denoising (E := Concrete.collaborators) 2%nat (Node NTuple [])
    Concrete.empty_state Concrete.flat_target [] = None.
Proof.
  split; [left; reflexivity|].
  exact (init_denoising_raises_without_leaf (E := Concrete.collaborators)
           2%nat (Node NTuple []) Concrete.empty_state Concrete.flat_target
           [] (or_introl eq_refl)).
Defined.


Lemma concrete_init_denoising_run :
  init_denoising (E := Concrete.collaborators) 2%nat (Leaf [9 / 10])
    Concrete.state0 Concrete.flat_target []
  = Some (Leaf [9 / 10 / (9 / 10) + 0],
          [(GaussianNoise, 2%nat); (Bernoulli, 2%nat)]).
Proof. run. reflexivity. Qed.

Lemma init_denoising_keeps_shape_witness :
  init_denoising (E := Concrete.collaborators) 2%nat (Leaf [9 / 10])
    Concrete.state0 Concrete.flat_target []
  = Some (Leaf [9 / 10 / (9 / 10) + 0],
          [(GaussianNoise, 2%nat); (Bernoulli, 2%nat)]) /\
  shape (Leaf [9 / 10 / (9 / 10) + 0]) = shape (position Concrete.state0).
Proof.
  split; [exact concrete_init_denoising_run|].
  exact (init_denoising_keeps_shape (E := Concrete.collaborators) 2%nat
           (Leaf [9 / 10]) Concrete.state0 Concrete.flat_target []
           (Leaf [9 / 10 / (9 / 10) + 0])
           [(GaussianNoise, 2%nat); (Bernoulli, 2%nat)]
           eq_refl eq_refl concrete_init_denoising_run).
Defined.

(** ** The refinement chain *)

Section Denoise_facts.

Context {E : Collaborators}.

Lemma scan_is_sampler_chain {St Info}
    (denoiser : SamplingAlgorithm option PRNGKey St (St * Info))
    (keys : list PRNGKey) (s : St) (log : use_log) :
  option_map (fun r => (fst (fst r), snd r))
    (scan (fun state rng_key => denoiser_step denoiser rng_key state)
       s keys log)
  = option_map (fun s' => (s', log ++ map (fun k => (SamplerStep, k)) keys))
      (sampler_chain denoiser s keys).
Proof.
  revert s log. induction keys as [| k keys IH]; intros s log; simpl.
  - unfold ret. simpl. now rewrite app_nil_r.
  - unfold bind at 1. unfold denoiser_step at 1. rewrite consume_then.
    destruct (step denoiser k s) as [r |]; simpl; [| reflexivity].
    unfold ret at 1. specialize (IH (fst r) (log ++ [(SamplerStep, k)])).
    unfold bind.
    destruct (scan _ (fst r) keys (log ++ [(SamplerStep, k)]))
      as [[r' log'] |];
      destruct (sampler_chain denoiser (fst r) keys) as [s' |];
      simpl in IH; try discriminate IH; [| reflexivity].
    injection IH as Hs Hlog. unfold ret. simpl.
    rewrite Hs, Hlog, <- app_assoc. reflexivity.
Qed.

(** X14. [denoise] starts the sampler first: when the sampler's [init]
    raises, so does [denoise].  Whenever [denoise] returns, it returns the
    position of the last state of the sampler's chain, started at the
    given position and advanced by one transition per key of
    [split(rng_key, n_steps)], in order; its key went to [init] and to
    [split], each sub-key to one transition. *)
Theorem denoise_returns_last_chain_position {St Info}
    (state_position : St -> pytree array) rng_key position
    (denoiser : SamplingAlgorithm option PRNGKey St (St * Info))
    n_steps log :
  (init denoiser position (Some rng_key) = None ->
   denoise state_position rng_key position denoiser n_steps log = None) /\
  (forall r log',
      denoise state_position rng_key position denoiser n_steps log
      = Some (r, log') ->
      exists s0 sN,
        init denoiser position (Some rng_key) = Some s0 /\
        sampler_chain denoiser s0 (jax_random_split rng_key n_steps)
        = Some sN /\
        r = state_position sN /\
        log' = log ++ [(SamplerInit, rng_key); (Split, rng_key)]
                   ++ map (fun k => (SamplerStep, k))
                        (jax_random_split rng_key n_steps)).
Proof.
  assert (Heq :
            denoise state_position rng_key position denoiser n_steps log
            = let? s0 := init denoiser position (Some rng_key) in
              let? s := sampler_chain denoiser s0
                          (jax_random_split rng_key n_steps) in
              Some (state_position s,
                    log ++ [(SamplerInit, rng_key); (Split, rng_key)]
                        ++ map (fun k => (SamplerStep, k))
                             (jax_random_split rng_key n_steps))).
  { unfold denoise. unfold bind at 1. unfold denoiser_init.
    rewrite consume_then.
    destruct (init denoiser position (Some rng_key)) as [s0 |]; simpl;
      [| reflexivity].
    unfold ret at 1. unfold bind at 1. rewrite random_split_run.
    pose proof (scan_is_sampler_chain denoiser
                  (jax_random_split rng_key n_steps) s0
                  ((log ++ [(SamplerInit, rng_key)]) ++ [(Split, rng_key)]))
      as Hscan.
    unfold bind.
    destruct (scan _ s0 (jax_random_split rng_key n_steps) _)
      as [[r log'] |];
      destruct (sampler_chain denoiser s0
                  (jax_random_split rng_key n_steps)) as [s |];
      simpl in Hscan; try discriminate Hscan; [| reflexivity].
    injection Hscan as Hs Hlog. unfold ret. simpl.
    rewrite Hs, Hlog, <- !app_assoc. reflexivity. }
  rewrite Heq. split.
  - intros ->. reflexivity.
  - intros r log' H.
    destruct (init denoiser position (Some rng_key)) as [s0 |];
      [| discriminate H].
    simpl in H.
    destruct (sampler_chain denoiser s0 (jax_random_split rng_key n_steps))
      as [sN |] eqn:HN; [| discriminate H].
    simpl in H. injection H as <- <-.
    exists s0, sN. split; [reflexivity|]. split; [assumption|].
    split; reflexivity.
Qed.

End Denoise_facts.

Lemma concrete_denoise_run :
  denoise (E := Concrete.collaborators) (fun s => s) 3%nat (Leaf [1])
    (Concrete.drift (fun _ => None) (1 / 100)) 2 []
  = Some (Leaf [1 + 1 / 100 + 1 / 100],
          [(SamplerInit, 3%nat); (Split, 3%nat);
           (SamplerStep, 31%nat); (SamplerStep, 32%nat)]).
Proof. run. reflexivity. Qed.

Lemma denoise_returns_last_chain_position_witness :
  (init Concrete.refusing (Leaf [1]) (Some 3%nat) = None /\
   denoise (E := Concrete.collaborators) (fun s => s) 3%nat (Leaf [1])
     Concrete.refusing 2 [] = None) /\
  denoise (E := Concrete.collaborators) (fun s => s) 3%nat (Leaf [1])
    (Concrete.drift (fun _ => None) (1 / 100)) 2 []
  = Some (Leaf [1 + 1 / 100 + 1 / 100],
          [(SamplerInit, 3%nat); (Split, 3%nat);
           (SamplerStep, 31%nat); (SamplerStep, 32%nat)]) /\
  exists s0 sN,
    init (Concrete.drift (fun _ => None) (1 / 100)) (Leaf [1]) (Some 3%nat)
    = Some s0 /\
    sampler_chain (Concrete.drift (fun _ => None) (1 / 100)) s0
      (Concrete.split 3 2) = Some sN /\
    Leaf [1 + 1 / 100 + 1 / 100] = sN /\
    [(SamplerInit, 3%nat); (Split, 3%nat);
     (SamplerStep, 31%nat); (SamplerStep, 32%nat)]
    = [] ++ [(SamplerInit, 3%nat); (Split, 3%nat)]
         ++ map (fun k => (SamplerStep, k)) (Concrete.split 3 2).
Proof.
  split.
  { split; [reflexivity|].
    exact (proj1 (denoise_returns_last_chain_position
                    (E := Concrete.collaborators) (fun s => s) 3%nat
                    (Leaf [1]) Concrete.refusing 2%nat []) eq_refl). }
  split; [exact concrete_denoise_run|].
  exact (proj2 (denoise_returns_last_chain_position
                  (E := Concrete.collaborators) (fun s => s) 3%nat
                  (Leaf [1]) (Concrete.drift (fun _ => None) (1 / 100))
                  2%nat []) _ _ concrete_denoise_run).
Defined.

(** ** The kernel as a whole *)

Section Kernel_facts.

Context {E : Collaborators}.

(** X15. A kernel invocation that emits a state has split its key into
    three and consumed, in this order: its own key (split), the first
    sub-key (noise of the noiser), the second sub-key twice (proposal
    noise, Bernoulli draw), the third sub-key twice (sampler [init],
    split), and one key of that last split per inner transition. *)
Theorem kernel_key_uses
    rng_key state logdensity_fn n_steps schedule log s' log' :
  kernel rng_key state logdensity_fn n_steps schedule log = Some (s', log') ->
  exists key_noiser key_init key_denoiser,
    jax_random_split rng_key 3 = [key_noiser; key_init; key_denoiser] /\
    log' = log ++ [(Split, rng_key); (GaussianNoise, key_noiser);
                   (GaussianNoise, key_init); (Bernoulli, key_init);
                   (SamplerInit, key_denoiser); (Split, key_denoiser)]
               ++ map (fun k => (SamplerStep, k))
                    (jax_random_split key_denoiser n_steps).
Proof.
  intros H. apply kernel_inv in H.
  destruct H as (k1 & k2 & k3 & np & start & den & l1 & l2 & l3 & H).
  destruct H as (Hsplit & Hn & Hi & Hd & -> & _).
  apply noiser_log in Hn. apply init_denoising_log in Hi.
  apply denoise_log in Hd. subst.
  exists k1, k2, k3. split; [exact Hsplit|].
  rewrite <- !app_assoc. reflexivity.
Qed.

(** X16. The kernel never reads the [logdensity] and [logdensity_grad]
    fields of its input state: replacing them changes nothing in the
    run. *)
Theorem kernel_ignores_input_logdensity
    rng_key state logdensity_fn n_steps schedule log
    (value : R) (grad : pytree array) :
  kernel rng_key
    {| position := position state;
       logdensity := value;
       logdensity_grad := grad;
       noise_contraction := noise_contraction state;
       noise_sigma := noise_sigma state;
       count := count state |}
    logdensity_fn n_steps schedule log
  = kernel rng_key state logdensity_fn n_steps schedule log.
Proof. destruct state. reflexivity. Qed.

(** X17. The schedule only sets the noise parameters of the emitted
    state: the transition itself runs on the parameters stored in the
    input state, so two schedules give the same position, log-density
    fields, count and key uses, and raise together. *)
Theorem kernel_transition_independent_of_schedule
    rng_key state logdensity_fn n_steps
    (schedule schedule' : Z -> R * R) log :
  option_map transition_outcome
    (kernel rng_key state logdensity_fn n_steps schedule log)
  = option_map transition_outcome
      (kernel rng_key state logdensity_fn n_steps schedule' log).
Proof.
  unfold kernel.
  destruct (jax_value_and_grad logdensity_fn (position state)) as [v g].
  unfold bind at 1 5.
  destruct (random_split rng_key 3 log) as [[keys log1] |]; [| reflexivity].
  destruct keys as [| k1 [| k2 [| k3 [| k4 ks]]]]; try reflexivity.
  unfold bind at 1 4.
  destruct (noiser k1 state log1) as [[noised log2] |]; [| reflexivity].
  unfold bind at 1 3.
  destruct (init_denoising k2 noised state logdensity_fn log2)
    as [[start log3] |]; [| reflexivity].
  unfold bind.
  destruct (denoise mala_position k3 start _ n_steps log3)
    as [[den log4] |]; [| reflexivity].
  destruct (schedule (counter_add (count state) 1)),
    (schedule' (counter_add (count state) 1)).
  reflexivity.
Qed.

(** X18. The kernel raises on a state whose position has no leaf (an
    empty container), whatever the collaborators do. *)
Theorem kernel_raises_without_leaf
    rng_key state logdensity_fn n_steps schedule log :
  tree_leaves (position state) = [] ->
  kernel rng_key state logdensity_fn n_steps schedule log = None.
Proof.
  intros Hnil. unfold kernel.
  destruct (jax_value_and_grad logdensity_fn (position state)) as [v g].
  eapply bind_run; [apply random_split_run|].
  destruct (jax_random_split rng_key 3)
    as [| k1 [| k2 [| k3 [| k4 ks]]]]; try reflexivity.
  unfold bind at 1.
  destruct (noiser k1 state (log ++ [(Split, rng_key)]))
    as [[noised log2] |] eqn:Hn; [| reflexivity].
  assert (Hnoised : tree_leaves noised = []).
  { unfold noiser in Hn. step_run Hn.
    apply lift_inv in Hn. destruct Hn as [Hmap _].
    apply (tree_map2_leaves _ (fun _ => True)) in Hmap; [| trivial].
    destruct Hmap as (_ & Hlen & _). unfold array in *.
    rewrite Hnil in Hlen. now apply length_zero_iff_nil. }
  unfold bind at 1.
  now rewrite (init_denoising_raises_without_leaf_aux k2 noised state
                 logdensity_fn log2 Hnoised).
Qed.

Lemma counter_fits_between (a b c : Z) :
  counter_fits a -> counter_fits c -> (a <= b <= c)%Z -> counter_fits b.
Proof.
  unfold counter_fits. destruct counter_bits as [bits |]; [lia | trivial].
Qed.

Lemma run_chain_invariant
    logdensity_fn n_steps schedule (keys : list PRNGKey) :
  forall state log s' log',
    (noise_contraction state, noise_sigma state) = schedule (count state) ->
    counter_fits (count state) ->
    counter_fits (count state + Z.of_nat (length keys)) ->
    run_chain (as_top_level_api logdensity_fn n_steps schedule) keys state log
    = Some (s', log') ->
    count s' = (count state + Z.of_nat (length keys))%Z /\
    (noise_contraction s', noise_sigma s') = schedule (count s').
Proof.
  induction keys as [| k keys IH]; intros state log s' log' Hinv Hlo Hhi H.
  - simpl in H. apply ret_inv in H. destruct H as [-> _]. simpl.
    split; [lia | exact Hinv].
  - simpl in H. step_run H. apply kernel_inv in Hrun.
    destruct Hrun as (k1 & k2 & k3 & np & start & den & l1 & l2 & l3 & Hk).
    destruct Hk as (_ & _ & _ & _ & _ & Ha).
    cbn [length] in Hhi. rewrite Nat2Z.inj_succ in Hhi.
    assert (Hnext : counter_fits (count state + 1)).
    { apply (counter_fits_between (count state) _
               (count state + Z.succ (Z.of_nat (length keys)))); trivial.
      lia. }
    assert (Hcount : count a = (count state + 1)%Z).
    { rewrite Ha. simpl. now apply counter_add_fits. }
    apply IH in H.
    + destruct H as [Hc Hs]. split; [| exact Hs].
      rewrite Hc, Hcount. cbn [length]. rewrite Nat2Z.inj_succ. lia.
    + rewrite Ha. simpl. symmetry. apply surjective_pairing.
    + now rewrite Hcount.
    + rewrite Hcount.
      replace (count state + 1 + Z.of_nat (length keys))%Z
        with (count state + Z.succ (Z.of_nat (length keys)))%Z by lia.
      exact Hhi.
Qed.

(** X19. Driving the public interface: after [init] and then one [step]
    per key, all of which emit a state, [count] is the number of steps
    made, as long as that number fits the integer type of the counter
    (always, for a Python int; up to 2147483647 for a 32-bit counter),
    and the noise parameters are the schedule's at that [count]. *)
Theorem chain_from_init_counts_steps
    logdensity_fn n_steps schedule position rng_key (keys : list PRNGKey)
    log s0 log0 s' log' :
  counter_fits (Z.of_nat (length keys)) ->
  init (as_top_level_api logdensity_fn n_steps schedule) position rng_key log
  = Some (s0, log0) ->
  run_chain (as_top_level_api logdensity_fn n_steps schedule) keys s0 log0
  = Some (s', log') ->
  count s' = Z.of_nat (length keys) /\
  (noise_contraction s', noise_sigma s') = schedule (count s').
Proof.
  intros Hfits Hinit Hrun. simpl in Hinit.
  destruct (jax_value_and_grad logdensity_fn position) as [value grad].
  destruct (schedule 0%Z) as [contraction sigma] eqn:Hs.
  apply ret_inv in Hinit. destruct Hinit as [-> ->].
  apply run_chain_invariant in Hrun.
  - simpl in Hrun. exact Hrun.
  - simpl. now rewrite Hs.
  - simpl. apply (counter_fits_between (-1 + 1) _ (Z.of_nat (length keys)));
      [| exact Hfits | lia].
    unfold counter_fits. destruct counter_bits as [bits |]; [| trivial].
    assert (0 < 2 ^ (Z.pos bits - 1))%Z by (apply Z.pow_pos_nonneg; lia).
    lia.
  - simpl. exact Hfits.
Qed.

End Kernel_facts.

Lemma kernel_key_uses_witness :
  kernel (E := Concrete.collaborators) 0%nat Concrete.state0
    Concrete.flat_target 2 Concrete.schedule []
  = Some (Concrete.state1, Concrete.log1) /\
  exists key_noiser key_init key_denoiser,
    Concrete.split 0 3 = [key_noiser; key_init; key_denoiser] /\
    Concrete.log1
    = [] ++ [(Split, 0%nat); (GaussianNoise, key_noiser);
             (GaussianNoise, key_init); (Bernoulli, key_init);
             (SamplerInit, key_denoiser); (Split, key_denoiser)]
         ++ map (fun k => (SamplerStep, k)) (Concrete.split key_denoiser 2).
Proof.
  split; [exact concrete_kernel_run|].
  exact (kernel_key_uses (E := Concrete.collaborators) 0%nat Concrete.state0
           Concrete.flat_target 2%nat Concrete.schedule []
           Concrete.state1 Concrete.log1 concrete_kernel_run).
Defined.

Lemma kernel_raises_without_leaf_witness :
  tree_leaves (position Concrete.empty_state) = [] /\
  kernel (E := Concrete.collaborators) 0%nat Concrete.empty_state
    Concrete.flat_target 2 Concrete.schedule [] = None.
Proof.
  split; [reflexivity|].
  exact (kernel_raises_without_leaf (E := Concrete.collaborators) 0%nat
           Concrete.empty_state Concrete.flat_target 2%nat Concrete.schedule
           [] eq_refl).
Defined.

Lemma traced_chain_run :
  exists s' log',
    run_chain
      (as_top_level_api (E := Concrete.traced_collaborators)
         Concrete.flat_target 2 Concrete.annealing)
      [0%nat; 5%nat; 8%nat]
      {| position := Leaf [1];
         logdensity := 0;
         logdensity_grad := Leaf [0];
         noise_contraction := 1 / 2;
         noise_sigma := 1 / (1 + 0);
         count := 0 |} []
    = Some (s', log').
Proof. eexists. eexists. run. reflexivity. Qed.

Lemma traced_three_steps_fit :
  counter_fits (E := Concrete.traced_collaborators)
    (Z.of_nat (length [0%nat; 5%nat; 8%nat])).
Proof. unfold counter_fits. simpl. lia. Qed.

Lemma chain_from_init_counts_steps_witness :
  counter_fits (E := Concrete.traced_collaborators)
    (Z.of_nat (length [0%nat; 5%nat; 8%nat])) /\
  exists s' log',
    run_chain
      (as_top_level_api (E := Concrete.traced_collaborators)
         Concrete.flat_target 2 Concrete.annealing)
      [0%nat; 5%nat; 8%nat]
      {| position := Leaf [1];
         logdensity := 0;
         logdensity_grad := Leaf [0];
         noise_contraction := 1 / 2;
         noise_sigma := 1 / (1 + 0);
         count := 0 |} []
    = Some (s', log') /\
    count s' = 3%Z /\
    (noise_contraction s', noise_sigma s') = Concrete.annealing (count s').
Proof.
  split; [exact traced_three_steps_fit|].
  destruct traced_chain_run as [s' [log' Hrun]].
  exists s', log'. split; [exact Hrun|].
  exact (chain_from_init_counts_steps (E := Concrete.traced_collaborators)
           Concrete.flat_target 2%nat Concrete.annealing (Leaf [1]) None
           [0%nat; 5%nat; 8%nat] [] _ [] s' log'
           traced_three_steps_fit eq_refl Hrun).
Defined.




